(** * SkillSwap: proximity-based user discovery

    A shallow embedding of the discovery logic of the skills screen
    ([app/(app)/skills.tsx]) and of the great-circle distance helper
    ([utils/haversineDistance]), followed by the properties that the
    specification states about them.

    Conventions of the embedding.
    - A JavaScript number is an IEEE double.  It is modelled by [JSNum]:
      either [NaN] or a real number, the infinities being left out.  The
      filter pipeline is stated on exact arithmetic; what depends on
      rounding is stated on [haversineDistance_r], in which every
      operation rounds.
    - A JavaScript string is a [string]; each character stands for one
      code unit of the Latin-1 range.
    - A value read from a field of TypeScript type [any] keeps the dynamic
      shape it can have at run time, and reading a property of such a value
      is a computation that may throw.  Of a stored location object the
      pipeline keeps properties that are absent or numbers; [AnyLocation]
      gives the radius callback on property values of any type. *)

From Stdlib Require Import List String Ascii Bool ZArith Lia.
From Stdlib Require Import Reals Lra.
From Stdlib Require Import Sorted Permutation.
Import ListNotations.

(* ===================================================================== *)
(** ** The JavaScript fragment used by the program *)
(* ===================================================================== *)

Module JS.

(** *** Completions: a value or a thrown exception *)

Inductive JSError : Type :=
| TypeError.

Inductive JSResult (A : Type) : Type :=
| Ok (a : A)
| Throw (e : JSError).

Arguments Ok {A} a.
Arguments Throw {A} e.

Definition bind {A B : Type} (c : JSResult A) (k : A -> JSResult B)
  : JSResult B :=
  match c with
  | Ok a => k a
  | Throw e => Throw e
  end.

(** [Array.prototype.filter] with a callback that may throw: elements are
    visited from left to right and the first exception aborts the call. *)
Fixpoint filterE {A : Type} (f : A -> JSResult bool) (l : list A)
  : JSResult (list A) :=
  match l with
  | [] => Ok []
  | x :: l' =>
      bind (f x) (fun keep =>
      bind (filterE f l') (fun rest =>
      Ok (if keep then x :: rest else rest)))
  end.

(** *** Numbers *)

Inductive JSNum : Type :=
| NaN
| Num (r : R).

Definition lift1 (f : R -> R) (a : JSNum) : JSNum :=
  match a with
  | Num x => Num (f x)
  | NaN => NaN
  end.

Definition lift2 (f : R -> R -> R) (a b : JSNum) : JSNum :=
  match a, b with
  | Num x, Num y => Num (f x y)
  | _, _ => NaN
  end.

Definition add : JSNum -> JSNum -> JSNum := lift2 Rplus.
Definition sub : JSNum -> JSNum -> JSNum := lift2 Rminus.
Definition mul : JSNum -> JSNum -> JSNum := lift2 Rmult.

(** [a / b].  The program only divides by the literals [180] and [2]; a
    zero divisor, which would give an infinity, is outside the model and
    is sent to [NaN]. *)
Definition div (a b : JSNum) : JSNum :=
  match a, b with
  | Num x, Num y => if Req_dec_T y 0 then NaN else Num (x / y)
  | _, _ => NaN
  end.

(** [a ** 2]. *)
Definition sqr (a : JSNum) : JSNum := mul a a.

Definition Math_PI : JSNum := Num PI.
Definition Math_sin : JSNum -> JSNum := lift1 sin.
Definition Math_cos : JSNum -> JSNum := lift1 cos.

(** [Math.sqrt]: [NaN] below zero. *)
Definition Math_sqrt (a : JSNum) : JSNum :=
  match a with
  | Num x => if Rlt_dec x 0 then NaN else Num (sqrt x)
  | NaN => NaN
  end.

(** The angle of the point [(x, y)], in [(-PI, PI]]. *)
Definition atan2R (y x : R) : R :=
  if Rlt_dec 0 x then atan (y / x)
  else if Rlt_dec x 0 then
         if Rle_dec 0 y then atan (y / x) + PI else atan (y / x) - PI
       else if Rlt_dec 0 y then PI / 2
            else if Rlt_dec y 0 then - (PI / 2)
                 else 0.

Definition Math_atan2 : JSNum -> JSNum -> JSNum := lift2 atan2R.

(** [a <= b]: false as soon as one side is [NaN]. *)
Definition le (a b : JSNum) : bool :=
  match a, b with
  | Num x, Num y => if Rle_dec x y then true else false
  | _, _ => false
  end.

(** Truthiness of a number: [0] and [NaN] are falsy. *)
Definition truthyNum (a : JSNum) : bool :=
  match a with
  | Num x => if Req_dec_T x 0 then false else true
  | NaN => false
  end.

(** A property that holds a number when it is there: [None] is
    [undefined]. *)
Definition JSField : Type := option JSNum.

(** [ToNumber] on such a property: [undefined] becomes [NaN]. *)
Definition toNumber (v : JSField) : JSNum :=
  match v with
  | Some n => n
  | None => NaN
  end.

Definition truthyField (v : JSField) : bool :=
  match v with
  | Some n => truthyNum n
  | None => false
  end.

(** *** Strings *)

Local Open Scope string_scope.

Definition code (c : ascii) : N := N_of_ascii c.

(** [String.prototype.toLowerCase] on one Latin-1 code unit: [A-Z] and
    the accented capitals [U+00C0 .. U+00DE] other than the
    multiplication sign [U+00D7] move up by 32, the rest is fixed. *)
Definition lowerChar (c : ascii) : ascii :=
  let n := code c in
  if ((65 <=? n) && (n <=? 90)
      || (192 <=? n) && (n <=? 222) && negb (n =? 215))%N
  then ascii_of_N (n + 32)
  else c.

Fixpoint toLowerCase (s : string) : string :=
  match s with
  | EmptyString => EmptyString
  | String c s' => String (lowerChar c) (toLowerCase s')
  end.

(** White space and line terminators of the Latin-1 range: TAB, LF, VT,
    FF, CR, SP and NBSP. *)
Definition isWhiteSpace (c : ascii) : bool :=
  let n := code c in
  ((9 <=? n) && (n <=? 13) || (n =? 32) || (n =? 160))%N.

Fixpoint trimStart (s : string) : string :=
  match s with
  | EmptyString => EmptyString
  | String c s' => if isWhiteSpace c then trimStart s' else s
  end.

(** Drops trailing white space: a character is kept when it is not white
    space or when something is kept after it. *)
Fixpoint trimEnd (s : string) : string :=
  match s with
  | EmptyString => EmptyString
  | String c s' =>
      match trimEnd s' with
      | EmptyString => if isWhiteSpace c then EmptyString
                       else String c EmptyString
      | t => String c t
      end
  end.

Definition trim (s : string) : string := trimEnd (trimStart s).

(** Truthiness of a string: only the empty string is falsy. *)
Definition truthyStr (s : string) : bool :=
  match s with
  | EmptyString => false
  | String _ _ => true
  end.

(** [s.includes(sub)]: [sub] occurs in [s] at some position. *)
Fixpoint str_includes (s sub : string) : bool :=
  String.prefix sub s
  || match s with
     | EmptyString => false
     | String _ s' => str_includes s' sub
     end.

(** *** Arrays *)

(** [arr.includes(x)] on an array of strings. *)
Definition includes (arr : list string) (x : string) : bool :=
  existsb (String.eqb x) arr.

(** [arr.some(f)]. *)
Definition some {A : Type} (arr : list A) (f : A -> bool) : bool :=
  existsb f arr.

(** [arr.slice(start, end)], with the clamping of negative and
    out-of-range indices that the language prescribes. *)
Definition slice {A : Type} (arr : list A) (start stop : Z) : list A :=
  let len := Z.of_nat (List.length arr) in
  let k := if (start <? 0)%Z then Z.max (len + start) 0
           else Z.min start len in
  let final := if (stop <? 0)%Z then Z.max (len + stop) 0
               else Z.min stop len in
  firstn (Z.to_nat (final - k)) (skipn (Z.to_nat k) arr).

(** [Math.ceil(n / d)] for integers [n] and [d > 0]. *)
Definition Math_ceil_div (n d : Z) : Z := (- ((- n) / d))%Z.

(** [arr.sort()] on strings: the default comparator orders strings by
    their code units; the sort is stable. *)
Fixpoint insert (x : string) (l : list string) : list string :=
  match l with
  | [] => [x]
  | y :: l' => if String.leb x y then x :: l else y :: insert x l'
  end.

Definition sort (arr : list string) : list string :=
  fold_right insert [] arr.

(** [Set<string>]: the elements in insertion order, without repetition.
    [Set_add] is [set.add(x)], [Array.from(set)] is the list itself. *)
Definition JSSet : Type := list string.

Definition Set_empty : JSSet := [].

Definition Set_add (set : JSSet) (x : string) : JSSet :=
  if includes set x then set else (set ++ [x])%list.

(** [arr.forEach(x => set.add(x))]. *)
Definition Set_addAll (set : JSSet) (arr : list string) : JSSet :=
  fold_left Set_add arr set.

End JS.

(* ===================================================================== *)
(** ** utils/haversineDistance *)
(* ===================================================================== *)

Module Haversine.
Import JS.

(** The argument type is declared [{ latitude: number; longitude:
    number }]; the callers build it from properties of an [any] value, so
    at run time either property may be [undefined]. *)
Record Coords : Type := mkCoords {
  latitude : JSField;
  longitude : JSField
}.

(** Earth radius in km. *)
Definition R_km : JSNum := Num 6371.

Definition toRad (deg : JSNum) : JSNum :=
  div (mul deg Math_PI) (Num 180).

Definition haversineDistance (coords1 coords2 : Coords) : JSNum :=
  let dLat := toRad (sub (toNumber (latitude coords2))
                         (toNumber (latitude coords1))) in
  let dLon := toRad (sub (toNumber (longitude coords2))
                         (toNumber (longitude coords1))) in
  let lat1 := toRad (toNumber (latitude coords1)) in
  let lat2 := toRad (toNumber (latitude coords2)) in
  let a :=
    add (sqr (Math_sin (div dLat (Num 2))))
        (mul (mul (Math_cos lat1) (Math_cos lat2))
             (sqr (Math_sin (div dLon (Num 2))))) in
  let c := mul (Num 2)
               (Math_atan2 (Math_sqrt a) (Math_sqrt (sub (Num 1) a))) in
  mul R_km c.

(** The same computation on doubles, with the rounding kept: every
    arithmetic operation returns the rounding [rnd] of the exact result,
    and [Math.sin], [Math.cos], [Math.sqrt], [Math.atan2] and [Math.PI]
    are whatever approximations the engine provides.  The literals
    [6371], [180], [2] and [1] are doubles. *)
Section Rounded.
Variable rnd : R -> R.
Variables fsin fcos fsqrt : R -> R.
Variable fatan2 : R -> R -> R.
Variable pi : R.

Definition add_r : JSNum -> JSNum -> JSNum :=
  lift2 (fun x y => rnd (x + y)).
Definition sub_r : JSNum -> JSNum -> JSNum :=
  lift2 (fun x y => rnd (x - y)).
Definition mul_r : JSNum -> JSNum -> JSNum :=
  lift2 (fun x y => rnd (x * y)).

Definition div_r (a b : JSNum) : JSNum :=
  match a, b with
  | Num x, Num y => if Req_dec_T y 0 then NaN else Num (rnd (x / y))
  | _, _ => NaN
  end.

Definition sqr_r (a : JSNum) : JSNum := mul_r a a.

Definition sqrt_r (a : JSNum) : JSNum :=
  match a with
  | Num x => if Rlt_dec x 0 then NaN else Num (fsqrt x)
  | NaN => NaN
  end.

Definition toRad_r (deg : JSNum) : JSNum :=
  div_r (mul_r deg (Num pi)) (Num 180).

Definition haversineDistance_r (coords1 coords2 : Coords) : JSNum :=
  let dLat := toRad_r (sub_r (toNumber (latitude coords2))
                             (toNumber (latitude coords1))) in
  let dLon := toRad_r (sub_r (toNumber (longitude coords2))
                             (toNumber (longitude coords1))) in
  let lat1 := toRad_r (toNumber (latitude coords1)) in
  let lat2 := toRad_r (toNumber (latitude coords2)) in
  let a :=
    add_r (sqr_r (lift1 fsin (div_r dLat (Num 2))))
          (mul_r (mul_r (lift1 fcos lat1) (lift1 fcos lat2))
                 (sqr_r (lift1 fsin (div_r dLon (Num 2))))) in
  let c := mul_r (Num 2)
                 (lift2 fatan2 (sqrt_r a) (sqrt_r (sub_r (Num 1) a))) in
  mul_r R_km c.

(** The value of the constant [a] of the function body. *)
Definition haversineTerm_r (coords1 coords2 : Coords) : JSNum :=
  let dLat := toRad_r (sub_r (toNumber (latitude coords2))
                             (toNumber (latitude coords1))) in
  let dLon := toRad_r (sub_r (toNumber (longitude coords2))
                             (toNumber (longitude coords1))) in
  let lat1 := toRad_r (toNumber (latitude coords1)) in
  let lat2 := toRad_r (toNumber (latitude coords2)) in
  add_r (sqr_r (lift1 fsin (div_r dLat (Num 2))))
        (mul_r (mul_r (lift1 fcos lat1) (lift1 fcos lat2))
               (sqr_r (lift1 fsin (div_r dLon (Num 2))))).
End Rounded.

End Haversine.


(* ===================================================================== *)
(** ** app/(app)/skills.tsx *)
(* ===================================================================== *)

Module Skills.
Import JS Haversine.
Local Open Scope string_scope.

(** Configuration *)
Definition ITEMS_PER_PAGE : Z := 10.

(** *** Values of type [any] stored in a [location] field

    The application writes [null] or an object [{ latitude, longitude }]
    there; older documents hold a string.  Of an object only the two
    properties that the screen reads are kept, each one absent or a
    number; property values of other types are the subject of
    [AnyLocation] below. *)
Inductive AnyValue : Type :=
| VUndefined
| VNull
| VString (s : string)
| VObject (c : Coords).

Definition truthy (v : AnyValue) : bool :=
  match v with
  | VUndefined | VNull => false
  | VString s => truthyStr s
  | VObject _ => true
  end.

Definition typeof (v : AnyValue) : string :=
  match v with
  | VUndefined => "undefined"
  | VNull => "object"
  | VString _ => "string"
  | VObject _ => "object"
  end.

(** [v.latitude] and [v.longitude]: reading a property of [undefined] or
    [null] throws a [TypeError]; a string has no such property. *)
Definition get_latitude (v : AnyValue) : JSResult JSField :=
  match v with
  | VUndefined | VNull => Throw TypeError
  | VString _ => Ok None
  | VObject c => Ok (latitude c)
  end.

Definition get_longitude (v : AnyValue) : JSResult JSField :=
  match v with
  | VUndefined | VNull => Throw TypeError
  | VString _ => Ok None
  | VObject c => Ok (longitude c)
  end.

(** *** Data *)

Inductive Status : Type :=
| online
| offline
| in_call.

(** User profile interface *)
Record UserWithSkills : Type := mkUser {
  id : string;
  uid : string;
  displayName : string;
  email : string;
  skillsTeaching : list string;
  skillsLearning : list string;
  bio : option string;
  location : AnyValue;
  status : Status;
  averageRating : option JSNum;
  reviewCount : option JSNum
}.

(** Role filter type: ['All' | 'Teaches' | 'Learns'] *)
Inductive RoleFilterType : Type :=
| RoleAll
| Teaches
| Learns.

(** The data of a document of the [users] collection, as [doc.data()]
    returns it: every field may be missing. *)
Module DocumentData.
Record t : Type := mk {
  displayName : option string;
  email : option string;
  skillsTeaching : option (list string);
  skillsLearning : option (list string);
  bio : option string;
  location : AnyValue;
  status : option Status;
  averageRating : option JSNum;
  reviewCount : option JSNum
}.
End DocumentData.

Record QueryDocumentSnapshot : Type := mkDoc {
  doc_id : string;
  doc_data : DocumentData.t
}.

(** The state of the screen that the discovery logic reads and writes. *)
Record ScreenState : Type := mkState {
  users : list UserWithSkills;
  filteredUsers : list UserWithSkills;
  allSkills : list string;
  loading : bool;
  refreshing : bool;
  searchText : string;
  selectedSkill : string;
  roleFilter : RoleFilterType;
  useRadiusFilter : bool;
  radius : JSNum;
  currentUserLocation : option Coords;
  currentPage : Z
}.

Definition setUsers (v : list UserWithSkills) (s : ScreenState) :=
  mkState v (filteredUsers s) (allSkills s) (loading s) (refreshing s)
          (searchText s) (selectedSkill s) (roleFilter s)
          (useRadiusFilter s) (radius s) (currentUserLocation s)
          (currentPage s).

Definition setFilteredUsers (v : list UserWithSkills) (s : ScreenState) :=
  mkState (users s) v (allSkills s) (loading s) (refreshing s)
          (searchText s) (selectedSkill s) (roleFilter s)
          (useRadiusFilter s) (radius s) (currentUserLocation s)
          (currentPage s).

Definition setAllSkills (v : list string) (s : ScreenState) :=
  mkState (users s) (filteredUsers s) v (loading s) (refreshing s)
          (searchText s) (selectedSkill s) (roleFilter s)
          (useRadiusFilter s) (radius s) (currentUserLocation s)
          (currentPage s).

Definition setLoading (v : bool) (s : ScreenState) :=
  mkState (users s) (filteredUsers s) (allSkills s) v (refreshing s)
          (searchText s) (selectedSkill s) (roleFilter s)
          (useRadiusFilter s) (radius s) (currentUserLocation s)
          (currentPage s).

Definition setRefreshing (v : bool) (s : ScreenState) :=
  mkState (users s) (filteredUsers s) (allSkills s) (loading s) v
          (searchText s) (selectedSkill s) (roleFilter s)
          (useRadiusFilter s) (radius s) (currentUserLocation s)
          (currentPage s).

Definition setCurrentUserLocation (v : option Coords) (s : ScreenState) :=
  mkState (users s) (filteredUsers s) (allSkills s) (loading s)
          (refreshing s) (searchText s) (selectedSkill s) (roleFilter s)
          (useRadiusFilter s) (radius s) v (currentPage s).

Definition setCurrentPage (v : Z) (s : ScreenState) :=
  mkState (users s) (filteredUsers s) (allSkills s) (loading s)
          (refreshing s) (searchText s) (selectedSkill s) (roleFilter s)
          (useRadiusFilter s) (radius s) (currentUserLocation s) v.

(** The state when the component mounts. *)
Definition initialState : ScreenState :=
  mkState [] [] ["All"] true false "" "All" RoleAll false (Num 10) None 1.

(** *** Load Users from Firestore *)

(** [a || b] on an optional string. *)
Definition orStr (a : option string) (b : string) : string :=
  match a with
  | Some s => if truthyStr s then s else b
  | None => b
  end.

(** [a || []]. *)
Definition orEmpty (a : option (list string)) : list string :=
  match a with
  | Some arr => arr
  | None => []
  end.

(** [a || 0]. *)
Definition orZero (a : option JSNum) : JSNum :=
  match a with
  | Some n => if truthyNum n then n else Num 0
  | None => Num 0
  end.

(** [a && a.length > 0]. *)
Definition nonEmpty (a : option (list string)) : bool :=
  match a with
  | Some arr => Nat.ltb 0 (List.length arr)
  | None => false
  end.

(** [doc.id !== user?.uid]; [user_uid] is [user?.uid], [None] when nobody
    is signed in. *)
Definition differsFrom (doc_id : string) (user_uid : option string) : bool :=
  match user_uid with
  | Some u => negb (String.eqb doc_id u)
  | None => true
  end.

(** The record pushed for an included document. *)
Definition toUser (doc : QueryDocumentSnapshot) : UserWithSkills :=
  let data := doc_data doc in
  {| id := doc_id doc;
     uid := doc_id doc;
     displayName := orStr (DocumentData.displayName data)
                          (orStr (DocumentData.email data) "User");
     email := orStr (DocumentData.email data) "";
     skillsTeaching := orEmpty (DocumentData.skillsTeaching data);
     skillsLearning := orEmpty (DocumentData.skillsLearning data);
     bio := Some (orStr (DocumentData.bio data) "");
     location := if truthy (DocumentData.location data)
                 then DocumentData.location data else VNull;
     status := match DocumentData.status data with
               | Some st => st
               | None => offline
               end;
     averageRating := Some (orZero (DocumentData.averageRating data));
     reviewCount := Some (orZero (DocumentData.reviewCount data)) |}.

(** The body of [querySnapshot.forEach], on the two accumulators
    [usersData] and [skillsSet]. *)
Definition visit (user_uid : option string)
           (acc : list UserWithSkills * JSSet)
           (doc : QueryDocumentSnapshot)
  : list UserWithSkills * JSSet :=
  let (usersData, skillsSet) := acc in
  if differsFrom (doc_id doc) user_uid then
    let data := doc_data doc in
    if nonEmpty (DocumentData.skillsTeaching data)
       || nonEmpty (DocumentData.skillsLearning data)
    then
      ((usersData ++ [toUser doc])%list,
       Set_addAll
         (Set_addAll skillsSet (orEmpty (DocumentData.skillsTeaching data)))
         (orEmpty (DocumentData.skillsLearning data)))
    else acc
  else acc.

Definition collect (user_uid : option string)
           (docs : list QueryDocumentSnapshot)
  : list UserWithSkills * JSSet :=
  fold_left (visit user_uid) docs ([], Set_empty).

(** [loadUsers]; [querySnapshot] is the outcome of [await
    getDocs(usersRef)], a thrown error when the fetch fails. *)
Definition loadUsers (user_uid : option string)
           (querySnapshot : JSResult (list QueryDocumentSnapshot))
           (s : ScreenState) : ScreenState :=
  let s1 := if Nat.eqb (List.length (users s)) 0 then setLoading true s else s in
  let s2 :=
    match querySnapshot with
    | Ok docs =>
        let (usersData, skillsSet) := collect user_uid docs in
        setAllSkills ("All" :: sort skillsSet) (setUsers usersData s1)
    | Throw _ => s1
    end in
  setRefreshing false (setLoading false s2).

(** *** Filtering *)

(** Skill & Role Filter *)
Definition skillRoleFilter (selectedSkill : string)
           (roleFilter : RoleFilterType)
           (result : list UserWithSkills) : list UserWithSkills :=
  if negb (String.eqb selectedSkill "All") then
    filter (fun u =>
              let teaches := includes (skillsTeaching u) selectedSkill in
              let learns := includes (skillsLearning u) selectedSkill in
              match roleFilter with
              | Teaches => teaches
              | Learns => learns
              | RoleAll => teaches || learns
              end) result
  else
    match roleFilter with
    | Teaches =>
        filter (fun u => Nat.ltb 0 (List.length (skillsTeaching u))) result
    | Learns =>
        filter (fun u => Nat.ltb 0 (List.length (skillsLearning u))) result
    | RoleAll => result
    end.

(** Search Text *)
Definition searchTextFilter (searchText : string)
           (result : list UserWithSkills) : list UserWithSkills :=
  if truthyStr (trim searchText) then
    let lowerSearch := toLowerCase searchText in
    filter (fun u =>
              str_includes (toLowerCase (displayName u)) lowerSearch
              || str_includes (toLowerCase (email u)) lowerSearch
              || match bio u with
                 | Some b => str_includes (toLowerCase b) lowerSearch
                 | None => false
                 end
              || some (skillsTeaching u)
                      (fun s => str_includes (toLowerCase s) lowerSearch)
              || some (skillsLearning u)
                      (fun s => str_includes (toLowerCase s) lowerSearch))
           result
  else result.

(** The callback of the radius filter.  The guard
    [!u.location || typeof u.location !== 'object' || !u.location.latitude]
    is evaluated from left to right and stops at the first disjunct that
    holds. *)
Definition withinRadius (currentUserLocation : Coords) (radius : JSNum)
           (u : UserWithSkills) : JSResult bool :=
  if negb (truthy (location u)) then Ok false
  else if negb (String.eqb (typeof (location u)) "object") then Ok false
  else
    bind (get_latitude (location u)) (fun lat =>
    if negb (truthyField lat) then Ok false
    else
      bind (get_latitude (location u)) (fun lat2 =>
      bind (get_longitude (location u)) (fun lon2 =>
      let dist :=
        haversineDistance
          (mkCoords (latitude currentUserLocation)
                    (longitude currentUserLocation))
          (mkCoords lat2 lon2) in
      Ok (le dist radius)))).

(** Radius / Location Filter *)
Definition radiusFilter (useRadiusFilter : bool)
           (currentUserLocation : option Coords) (radius : JSNum)
           (result : list UserWithSkills)
  : JSResult (list UserWithSkills) :=
  match useRadiusFilter, currentUserLocation with
  | true, Some cur => filterE (withinRadius cur radius) result
  | _, _ => Ok result
  end.

(** The list that [applyFilters] computes from the state. *)
Definition filterPipeline (s : ScreenState)
  : JSResult (list UserWithSkills) :=
  let result := users s in
  let result := skillRoleFilter (selectedSkill s) (roleFilter s) result in
  let result := searchTextFilter (searchText s) result in
  radiusFilter (useRadiusFilter s) (currentUserLocation s) (radius s)
               result.

Definition applyFilters (s : ScreenState) : JSResult ScreenState :=
  bind (filterPipeline s) (fun result =>
  Ok (setCurrentPage 1 (setFilteredUsers result s))).

(** *** Pagination Logic *)

Definition totalPages (s : ScreenState) : Z :=
  Math_ceil_div (Z.of_nat (List.length (filteredUsers s))) ITEMS_PER_PAGE.

Definition paginatedUsers (s : ScreenState) : list UserWithSkills :=
  slice (filteredUsers s)
        ((currentPage s - 1) * ITEMS_PER_PAGE)
        (currentPage s * ITEMS_PER_PAGE).

(** Next Page *)
Definition nextPage (s : ScreenState) : ScreenState :=
  if (currentPage s <? totalPages s)%Z
  then setCurrentPage (currentPage s + 1) s
  else s.

(** Previous Page *)
Definition prevPage (s : ScreenState) : ScreenState :=
  if (1 <? currentPage s)%Z
  then setCurrentPage (currentPage s - 1) s
  else s.

(** A press on one of the two pagination buttons. *)
Inductive PageAction : Type :=
| PressNext
| PressPrev.

Definition press (s : ScreenState) (a : PageAction) : ScreenState :=
  match a with
  | PressNext => nextPage s
  | PressPrev => prevPage s
  end.

(** *** Listen to current user location *)

(** The snapshot callback; [data] is [docSnap.data()], [None] when the
    document does not exist. *)
Definition onUserSnapshot (data : option DocumentData.t) (s : ScreenState)
  : JSResult ScreenState :=
  match data with
  | Some d =>
      if truthy (DocumentData.location d) then
        bind (get_latitude (DocumentData.location d)) (fun lat =>
        bind (get_longitude (DocumentData.location d)) (fun lon =>
        Ok (setCurrentUserLocation (Some (mkCoords lat lon)) s)))
      else Ok (setCurrentUserLocation None s)
  | None => Ok (setCurrentUserLocation None s)
  end.

End Skills.

Import JS Haversine Skills.
Local Open Scope string_scope.
Local Open Scope list_scope.

(* ===================================================================== *)
(** ** app/(app)/skills.tsx: a stored location with properties of any
       type *)
(* ===================================================================== *)

Module AnyLocation.

(** The [location] of a user document has type [any], so the two
    properties of a stored object can hold any value, not only a number.
    The radius callback uses [latitude] as a condition and both
    properties as operands of [-] and [*]; of a property value it thus
    observes two things: whether the value is truthy, and the number that
    [ToNumber] makes of it. *)
Record AnyProp : Type := mkProp {
  isTruthy : bool;
  asNumber : JSNum
}.

(** A missing property, [null] and a number.  A string is truthy unless
    it is empty; it converts to the number [spelt] when it spells one and
    to [NaN] when it spells none. *)
Definition prop_undefined : AnyProp := mkProp false NaN.

Definition prop_null : AnyProp := mkProp false (Num 0).

Definition prop_number (n : JSNum) : AnyProp := mkProp (truthyNum n) n.

Definition prop_numeric_string (s : string) (spelt : R) : AnyProp :=
  mkProp (truthyStr s) (Num spelt).

Definition prop_other_string (s : string) : AnyProp :=
  mkProp (truthyStr s) NaN.

Definition prop_field (f : JSField) : AnyProp :=
  match f with
  | Some n => prop_number n
  | None => prop_undefined
  end.

(** The value of [u.location]. *)
Inductive LocationValue : Type :=
| LUndefined
| LNull
| LString (s : string)
| LObject (lat lon : AnyProp).

Definition truthyLocation (v : LocationValue) : bool :=
  match v with
  | LUndefined | LNull => false
  | LString s => truthyStr s
  | LObject _ _ => true
  end.

Definition typeofLocation (v : LocationValue) : string :=
  match v with
  | LUndefined => "undefined"
  | LNull => "object"
  | LString _ => "string"
  | LObject _ _ => "object"
  end.

Definition latitudeOf (v : LocationValue) : JSResult AnyProp :=
  match v with
  | LUndefined | LNull => Throw TypeError
  | LString _ => Ok prop_undefined
  | LObject lat _ => Ok lat
  end.

Definition longitudeOf (v : LocationValue) : JSResult AnyProp :=
  match v with
  | LUndefined | LNull => Throw TypeError
  | LString _ => Ok prop_undefined
  | LObject _ lon => Ok lon
  end.

(** The callback of the radius filter on such a location.  The distance
    function converts what it is given with [ToNumber], so it receives
    the numbers of the two properties. *)
Definition withinRadiusAny (currentUserLocation : Coords) (radius : JSNum)
           (loc : LocationValue) : JSResult bool :=
  if negb (truthyLocation loc) then Ok false
  else if negb (String.eqb (typeofLocation loc) "object") then Ok false
  else
    bind (latitudeOf loc) (fun lat =>
    if negb (isTruthy lat) then Ok false
    else
      bind (latitudeOf loc) (fun lat2 =>
      bind (longitudeOf loc) (fun lon2 =>
      let dist :=
        haversineDistance
          (mkCoords (latitude currentUserLocation)
                    (longitude currentUserLocation))
          (mkCoords (Some (asNumber lat2)) (Some (asNumber lon2))) in
      Ok (le dist radius)))).

(** The locations of [Skills.AnyValue] among these. *)
Definition widen (v : AnyValue) : LocationValue :=
  match v with
  | VUndefined => LUndefined
  | VNull => LNull
  | VString s => LString s
  | VObject c => LObject (prop_field (latitude c)) (prop_field (longitude c))
  end.

End AnyLocation.

Import AnyLocation.

(* ===================================================================== *)
(** ** Notions used to state the properties *)
(* ===================================================================== *)

Module Spec.

(** [Subsequence l1 l2]: [l1] is obtained from [l2] by deleting elements,
    the relative order of the others being kept. *)
Inductive Subsequence {A : Type} : list A -> list A -> Prop :=
| sub_nil : Subsequence [] []
| sub_keep (x : A) (l1 l2 : list A) :
    Subsequence l1 l2 -> Subsequence (x :: l1) (x :: l2)
| sub_drop (x : A) (l1 l2 : list A) :
    Subsequence l1 l2 -> Subsequence l1 (x :: l2).

(** Strict lexicographic order on strings, by code unit. *)
Inductive lex_lt : string -> string -> Prop :=
| lex_prefix (c : ascii) (s : string) : lex_lt EmptyString (String c s)
| lex_head (c1 c2 : ascii) (s1 s2 : string) :
    (code c1 < code c2)%N -> lex_lt (String c1 s1) (String c2 s2)
| lex_tail (c : ascii) (s1 s2 : string) :
    lex_lt s1 s2 -> lex_lt (String c s1) (String c s2).

(** The decision that the radius callback takes, without the exception
    layer: the location is an object, its latitude is truthy and the
    distance to the current user is at most the radius. *)
Definition keptByRadius (cur : Coords) (radius : JSNum)
           (u : UserWithSkills) : bool :=
  match location u with
  | VObject c => truthyField (latitude c)
                 && le (haversineDistance cur c) radius
  | _ => false
  end.

(** A candidate has a coordinate when its location is an object holding
    two numbers. *)
Definition hasCoordinate (u : UserWithSkills) (lat lon : R) : Prop :=
  location u = VObject (mkCoords (Some (Num lat)) (Some (Num lon))).

(** A property that holds a number other than [NaN]. *)
Definition isNumber (v : JSField) : bool :=
  match v with
  | Some (Num _) => true
  | _ => false
  end.

(** A document that the loader has to include. *)
Definition eligible (user_uid : option string)
           (doc : QueryDocumentSnapshot) : bool :=
  differsFrom (doc_id doc) user_uid
  && (nonEmpty (DocumentData.skillsTeaching (doc_data doc))
      || nonEmpty (DocumentData.skillsLearning (doc_data doc))).


(** The origin of the coordinate system, and the point of the equator
    and the point of the prime meridian at [km] kilometres from it. *)
Definition origin : Coords := mkCoords (Some (Num 0)) (Some (Num 0)).

Definition degreesOf (km : R) : R := (km * 180 / (6371 * PI))%R.

Definition eastOfOrigin (km : R) : Coords :=
  mkCoords (Some (Num 0)) (Some (Num (degreesOf km))).

Definition northOfOrigin (km : R) : Coords :=
  mkCoords (Some (Num (degreesOf km))) (Some (Num 0)).

(** A candidate that only differs from a blank profile by its
    location. *)
Definition candidateAt (name : string) (loc : AnyValue) : UserWithSkills :=
  mkUser name name name EmptyString [] [] None loc offline None None.

End Spec.

Import Spec.

(* ===================================================================== *)
(** ** Sample data *)
(* ===================================================================== *)

Module Examples.

(** The screen of a user at the origin, with the radius filter switched
    on at 5 km. *)
Definition radiusOn (candidates : list UserWithSkills)
           (self : option Coords) : ScreenState :=
  mkState candidates [] ["All"] false false "" "All" RoleAll true (Num 5)
          self 1.

Definition east49 : UserWithSkills :=
  candidateAt "east" (VObject (eastOfOrigin (49 / 10))).

Definition north49 : UserWithSkills :=
  candidateAt "north" (VObject (northOfOrigin (49 / 10))).

Definition north51 : UserWithSkills :=
  candidateAt "far" (VObject (northOfOrigin (51 / 10))).

Definition nowhere : UserWithSkills := candidateAt "nowhere" VNull.

Definition legacy : UserWithSkills :=
  candidateAt "legacy" (VString "Boston").



Definition atOrigin : UserWithSkills := candidateAt "origin" (VObject origin).

(** Three candidates of which only the first teaches Guitar. *)
Definition xavier : UserWithSkills :=
  mkUser "x" "x" "Xavier" "x@example.org" ["Guitar"; "Piano"] ["Chess"]
         (Some "") VNull online (Some (Num 0)) (Some (Num 0)).

Definition yann : UserWithSkills :=
  mkUser "y" "y" "Yann" "y@example.org" ["Piano"] ["Guitar"]
         (Some "") VNull offline (Some (Num 0)) (Some (Num 0)).

Definition zoe : UserWithSkills :=
  mkUser "z" "z" "Zoe" "z@example.org" [] ["Cooking"]
         (Some "") VNull offline (Some (Num 0)) (Some (Num 0)).

Definition guitarTeachers : ScreenState :=
  mkState [yann; xavier; zoe] [] ["All"] false false "" "Guitar" Teaches
          false (Num 10) None 1.

(** A screen showing [n] results on page [page]. *)
Definition showing (n : nat) (page : Z) : ScreenState :=
  mkState [] (repeat zoe n) ["All"] false false "" "All" RoleAll false
          (Num 10) None page.

(** Documents of the [users] collection. *)
Definition docOf (i : string) (teach learn : option (list string))
  : QueryDocumentSnapshot :=
  mkDoc i (DocumentData.mk (Some i) None teach learn None VUndefined None
                           None None).

Definition sampleDocs : list QueryDocumentSnapshot :=
  [ docOf "me" (Some ["Rust"]) None;
    docOf "a" (Some ["Piano"; "Guitar"]) (Some ["Chess"]);
    docOf "b" None None;
    docOf "c" (Some []) (Some ["Guitar"; "Baking"]);
    docOf "d" (Some []) None ].

End Examples.

Import Examples.

(* ===================================================================== *)
(** ** More of the JavaScript fragment *)
(* ===================================================================== *)

Module JSExtra.

Local Open Scope string_scope.

(** [arr.join(sep)]. *)
Fixpoint join (sep : string) (arr : list string) : string :=
  match arr with
  | [] => ""
  | x :: rest =>
      match rest with
      | [] => x
      | _ :: _ => x ++ sep ++ join sep rest
      end
  end.

(** [s.split(sep)] for a separator of one code unit: the pieces between
    the occurrences of the separator, at least one piece. *)
Fixpoint split (sep : ascii) (s : string) : list string :=
  match s with
  | EmptyString => [EmptyString]
  | String c s' =>
      if Ascii.eqb c sep then EmptyString :: split sep s'
      else match split sep s' with
           | piece :: pieces => String c piece :: pieces
           | [] => [String c EmptyString]
           end
  end.

(** [Math.floor]. *)
Definition Math_floor : JSNum -> JSNum :=
  lift1 (fun x => IZR (Int_part x)).

(** Rounding towards zero. *)
Definition truncR (x : R) : R :=
  if Rle_dec 0 x then IZR (Int_part x) else (- IZR (Int_part (- x)))%R.

(** [a % b]: the remainder has the sign of the dividend; [NaN] for a zero
    divisor. *)
Definition rem (a b : JSNum) : JSNum :=
  match a, b with
  | Num x, Num y =>
      if Req_dec_T y 0 then NaN else Num (x - y * truncR (x / y))
  | _, _ => NaN
  end.

(** [a >= b], [a > b] and [a === b] on numbers: false as soon as one side
    is [NaN]. *)
Definition ge (a b : JSNum) : bool := le b a.

Definition gt (a b : JSNum) : bool :=
  match a, b with
  | Num x, Num y => if Rlt_dec y x then true else false
  | _, _ => false
  end.

Definition strictEq (a b : JSNum) : bool :=
  match a, b with
  | Num x, Num y => if Req_dec_T x y then true else false
  | _, _ => false
  end.

(** [v || d] on a numeric property. *)
Definition orNum (v : JSField) (d : JSNum) : JSNum :=
  match v with
  | Some n => if truthyNum n then n else d
  | None => d
  end.

End JSExtra.

(* ===================================================================== *)
(** ** utils/conversationUtils *)
(* ===================================================================== *)

Module ConversationUtils.

Import JSExtra.
Local Open Scope string_scope.

(** Generate a consistent conversation ID from two user IDs *)
Definition generateConversationId (userId1 userId2 : string) : string :=
  join "_" (sort [userId1; userId2]).

(** Extract the other user's ID from a conversation ID.  An index past the
    end of the array reads [undefined], here [None]. *)
Definition getOtherUserId (conversationId currentUserId : string)
  : option string :=
  let userIds := split "_"%char conversationId in
  match nth_error userIds 0 with
  | Some first =>
      if String.eqb first currentUserId then nth_error userIds 1
      else Some first
  | None => None
  end.

End ConversationUtils.

(* ===================================================================== *)
(** ** components/StarRating *)
(* ===================================================================== *)

Module StarRating.

Import JSExtra.

(** The three glyphs that [renderStars] pushes. *)
Inductive Star : Type :=
| FullStar
| HalfStar
| EmptyStar.

(** The body of the loop, for the counter [i]. *)
Definition star (fullStars : JSNum) (hasHalfStar : bool) (i : Z) : Star :=
  if le (Num (IZR i)) fullStars then FullStar
  else if strictEq (Num (IZR i)) (add fullStars (Num 1)) && hasHalfStar
       then HalfStar
       else EmptyStar.

(** [for (let i = 1; i <= 5; i++)]. *)
Definition renderStars (rating : JSNum) : list Star :=
  let fullStars := Math_floor rating in
  let hasHalfStar := ge (rem rating (Num 1)) (Num (1 / 2)) in
  map (star fullStars hasHalfStar) [1; 2; 3; 4; 5]%Z.

(** What the component returns: the note "No reviews yet", or the stars
    followed, when [ratingText] is there, by the text made of
    [rating.toFixed(1)] and of the count between parentheses. *)
Inductive Rendering : Type :=
| NoReviewsYet
| Stars (stars : list Star) (ratingText : option (JSNum * JSNum)).

(** The component; a missing [reviewCount] is [0] and a missing
    [showCount] is [true]. *)
Definition StarRating (rating : JSNum) (reviewCount : option JSNum)
           (showCount : option bool) : Rendering :=
  let reviewCount := match reviewCount with Some n => n | None => Num 0 end in
  let showCount := match showCount with Some b => b | None => true end in
  if strictEq reviewCount (Num 0) && strictEq rating (Num 0)
  then NoReviewsYet
  else Stars (renderStars rating)
             (if showCount && gt reviewCount (Num 0)
              then Some (rating, reviewCount) else None).

End StarRating.

(* ===================================================================== *)
(** ** app/(app)/skills.tsx: the rest of the screen *)
(* ===================================================================== *)

Module SkillsScreen.

Import JSExtra.
Local Open Scope string_scope.

(** [arr.map(f)] with a callback that may throw. *)
Fixpoint mapE {A B : Type} (f : A -> JSResult B) (l : list A)
  : JSResult (list B) :=
  match l with
  | [] => Ok []
  | x :: l' =>
      bind (f x) (fun y =>
      bind (mapE f l') (fun rest =>
      Ok (y :: rest)))
  end.

(** *** Clear All Filters *)

Definition clearFilters (s : ScreenState) : ScreenState :=
  mkState (users s) (filteredUsers s) (allSkills s) (loading s)
          (refreshing s) "" "All" RoleAll false (Num 10)
          (currentUserLocation s) (currentPage s).

(** The setters behind the search box, the skill chips, the role options,
    the switch and the slider. *)
Definition setSearchText (v : string) (s : ScreenState) : ScreenState :=
  mkState (users s) (filteredUsers s) (allSkills s) (loading s)
          (refreshing s) v (selectedSkill s) (roleFilter s)
          (useRadiusFilter s) (radius s) (currentUserLocation s)
          (currentPage s).

Definition setSelectedSkill (v : string) (s : ScreenState) : ScreenState :=
  mkState (users s) (filteredUsers s) (allSkills s) (loading s)
          (refreshing s) (searchText s) v (roleFilter s)
          (useRadiusFilter s) (radius s) (currentUserLocation s)
          (currentPage s).

Definition setRoleFilter (v : RoleFilterType) (s : ScreenState)
  : ScreenState :=
  mkState (users s) (filteredUsers s) (allSkills s) (loading s)
          (refreshing s) (searchText s) (selectedSkill s) v
          (useRadiusFilter s) (radius s) (currentUserLocation s)
          (currentPage s).

Definition setUseRadiusFilter (v : bool) (s : ScreenState) : ScreenState :=
  mkState (users s) (filteredUsers s) (allSkills s) (loading s)
          (refreshing s) (searchText s) (selectedSkill s) (roleFilter s)
          v (radius s) (currentUserLocation s) (currentPage s).

Definition setRadius (v : JSNum) (s : ScreenState) : ScreenState :=
  mkState (users s) (filteredUsers s) (allSkills s) (loading s)
          (refreshing s) (searchText s) (selectedSkill s) (roleFilter s)
          (useRadiusFilter s) v (currentUserLocation s) (currentPage s).

(** *** Map Modal Handler *)

Inductive MapOutcome : Type :=
| AlertLocationDisabled
| AlertNoUsers
| ShowMapModal.

(** [u.location && typeof u.location === 'object' && u.location.latitude
    && u.location.longitude], as a filter callback. *)
Definition hasMapLocation (u : UserWithSkills) : JSResult bool :=
  if negb (truthy (location u)) then Ok false
  else if negb (String.eqb (typeof (location u)) "object") then Ok false
  else
    bind (get_latitude (location u)) (fun lat =>
    if negb (truthyField lat) then Ok false
    else
      bind (get_longitude (location u)) (fun lon =>
      Ok (truthyField lon))).

Definition usersWithLocation (s : ScreenState)
  : JSResult (list UserWithSkills) :=
  filterE hasMapLocation (filteredUsers s).

Definition handleOpenMap (s : ScreenState) : JSResult MapOutcome :=
  match currentUserLocation s with
  | None => Ok AlertLocationDisabled
  | Some cur =>
      if negb (truthyField (latitude cur))
         || negb (truthyField (longitude cur))
      then Ok AlertLocationDisabled
      else
        bind (usersWithLocation s) (fun found =>
        if Nat.eqb (List.length found) 0 then Ok AlertNoUsers
        else Ok ShowMapModal)
  end.

(** [initialRegion] of the map: [currentUserLocation?.latitude || 37.7749]
    and [currentUserLocation?.longitude || -122.4194]. *)
Definition initialRegion (s : ScreenState) : JSNum * JSNum :=
  match currentUserLocation s with
  | Some cur =>
      (orNum (latitude cur) (Num (377749 / 10000)),
       orNum (longitude cur) (Num (- (1224194 / 10000))))
  | None => (Num (377749 / 10000), Num (- (1224194 / 10000)))
  end.

(** The filter of [onMapReady]:
    [u.location && u.location.latitude && u.location.longitude]. *)
Definition hasLatLng (u : UserWithSkills) : JSResult bool :=
  if negb (truthy (location u)) then Ok false
  else
    bind (get_latitude (location u)) (fun lat =>
    if negb (truthyField lat) then Ok false
    else
      bind (get_longitude (location u)) (fun lon =>
      Ok (truthyField lon))).

Definition latLngOf (u : UserWithSkills) : JSResult Coords :=
  bind (get_latitude (location u)) (fun lat =>
  bind (get_longitude (location u)) (fun lon =>
  Ok (mkCoords lat lon))).

(** [onMapReady]: the coordinates handed to [fitToCoordinates], [None]
    when it is not called; [mapMounted] tells whether [mapRef.current] is
    set. *)
Definition onMapReady (mapMounted : bool) (s : ScreenState)
  : JSResult (option (list Coords)) :=
  match Nat.ltb 0 (List.length (filteredUsers s)), currentUserLocation s with
  | true, Some cur =>
      bind (filterE hasLatLng (filteredUsers s)) (fun located =>
      bind (mapE latLngOf located) (fun coords =>
      let allCoords :=
        mkCoords (latitude cur) (longitude cur) :: coords in
      if Nat.ltb 0 (List.length allCoords) && mapMounted
      then Ok (Some allCoords) else Ok None))
  | _, _ => Ok None
  end.

(** A marker of the map: its key, its coordinate and the distance of its
    callout, when the callout shows one. *)
Record Marker : Type := mkMarker {
  marker_key : string;
  coordinate : Coords;
  calloutDistance : option JSNum
}.

(** [u => u.location && <Marker ...>]: nothing is drawn for a falsy
    location. *)
Definition markerOf (currentUserLocation : option Coords)
           (u : UserWithSkills) : JSResult (option Marker) :=
  if negb (truthy (location u)) then Ok None
  else
    bind (get_latitude (location u)) (fun lat =>
    bind (get_longitude (location u)) (fun lon =>
    let distance :=
      match currentUserLocation with
      | Some cur =>
          if truthyField lat && truthyField lon
          then Some (haversineDistance
                       (mkCoords (latitude cur) (longitude cur))
                       (mkCoords lat lon))
          else None
      | None => None
      end in
    Ok (Some (mkMarker (uid u) (mkCoords lat lon) distance)))).

Definition markers (s : ScreenState) : JSResult (list (option Marker)) :=
  mapE (markerOf (currentUserLocation s)) (filteredUsers s).

(** *** Friend requests *)

Record AuthUser : Type := mkAuthUser {
  auth_uid : string;
  auth_email : option string
}.

(** A document of the [friendRequests] collection. *)
Module FriendRequest.
Record t : Type := mk {
  fromUserId : string;
  fromUserName : string;
  fromUserEmail : string;
  toUserId : string;
  toUserName : string;
  toUserEmail : string;
  status : string;
  message : string;
  createdAt : string
}.
End FriendRequest.

(** A document of the [friends] collection. *)
Record FriendLink : Type := mkFriendLink {
  userId : string;
  friendId : string
}.

(** The part of the component state that the request logic uses. *)
Record RequestState : Type := mkRequestState {
  sentRequests : list string;
  existingFriends : list string;
  selectedUser : option UserWithSkills;
  showRequestModal : bool;
  requestMessage : string;
  sending : bool
}.

(** The documents of the collection that
    [query(requestsRef, where('fromUserId', '==', uid))] matches.  The
    store keeps a collection without order and returns the matching
    documents in an order of its own, by document id: the list is one
    enumeration of the collection, and a snapshot of the query is this
    result in any order. *)
Definition requestsFrom (uid : string) (collection : list FriendRequest.t)
  : list FriendRequest.t :=
  filter (fun r => String.eqb (FriendRequest.fromUserId r) uid) collection.

(** [query(friendsRef, where('userId', '==', uid))]. *)
Definition friendsOf (uid : string) (collection : list FriendLink)
  : list FriendLink :=
  filter (fun f => String.eqb (userId f) uid) collection.

(** Load Sent Friend Requests; [snapshot] is the outcome of [getDocs]. *)
Definition loadSentRequests (user : option AuthUser)
           (snapshot : JSResult (list FriendRequest.t))
           (st : RequestState) : RequestState :=
  match user with
  | None => st
  | Some _ =>
      match snapshot with
      | Ok docs =>
          let ids :=
            map FriendRequest.toUserId
                (filter (fun data =>
                           String.eqb (FriendRequest.status data) "pending")
                        docs) in
          mkRequestState ids (existingFriends st) (selectedUser st)
                         (showRequestModal st) (requestMessage st)
                         (sending st)
      | Throw _ => st
      end
  end.

(** Load Existing Friends *)
Definition loadExistingFriends (user : option AuthUser)
           (snapshot : JSResult (list FriendLink))
           (st : RequestState) : RequestState :=
  match user with
  | None => st
  | Some _ =>
      match snapshot with
      | Ok docs =>
          mkRequestState (sentRequests st) (map friendId docs)
                         (selectedUser st) (showRequestModal st)
                         (requestMessage st) (sending st)
      | Throw _ => st
      end
  end.

(** [openRequestModal]; the guard of the source admits a missing
    argument. *)
Definition openRequestModal (targetUser : option UserWithSkills)
           (st : RequestState) : RequestState :=
  match targetUser with
  | None => st
  | Some u =>
      mkRequestState (sentRequests st) (existingFriends st) (Some u) true
                     "" (sending st)
  end.

(** Send Friend Request.  [currentUserDoc] is the outcome of [getDoc] on
    the document of the sender, [written] tells whether [addDoc] succeeds,
    [now] is [new Date().toISOString()]; the result is the collection and
    the state afterwards.  The new document is listed last, which says
    nothing of where a later query returns it. *)
Definition sendFriendRequest (user : option AuthUser)
           (currentUserDoc : JSResult (option DocumentData.t))
           (written : bool) (now : string)
           (collection : list FriendRequest.t) (st : RequestState)
  : list FriendRequest.t * RequestState :=
  match user, selectedUser st with
  | Some user, Some selected =>
      match currentUserDoc with
      | Ok currentUserData =>
          if written then
            let request :=
              FriendRequest.mk
                (auth_uid user)
                (orStr (match currentUserData with
                        | Some d => DocumentData.displayName d
                        | None => None
                        end)
                       (orStr (auth_email user) "User"))
                (orStr (auth_email user) "")
                (uid selected) (displayName selected) (email selected)
                "pending" (trim (requestMessage st)) now in
            ((collection ++ [request])%list,
             mkRequestState ((sentRequests st ++ [uid selected])%list)
                            (existingFriends st) (selectedUser st) false
                            (requestMessage st) false)
          else
            (collection,
             mkRequestState (sentRequests st) (existingFriends st)
                            (selectedUser st) (showRequestModal st)
                            (requestMessage st) false)
      | Throw _ =>
          (collection,
           mkRequestState (sentRequests st) (existingFriends st)
                          (selectedUser st) (showRequestModal st)
                          (requestMessage st) false)
      end
  | _, _ => (collection, st)
  end.

(** *** Handle Messaging User *)

Inductive Navigation : Type :=
| AlertLoginRequired
| PushChatRoom (conversationId otherUserId otherUserName : string).

Definition handleMessageUser (user : option AuthUser)
           (targetUser : UserWithSkills) : Navigation :=
  match user with
  | None => AlertLoginRequired
  | Some user =>
      let conversationId :=
        ConversationUtils.generateConversationId (auth_uid user)
                                                 (uid targetUser) in
      PushChatRoom conversationId (uid targetUser) (displayName targetUser)
  end.

(** *** Render User Card *)

Inductive ActionButton : Type :=
| MessageButton
| PendingIcon
| AddButton.

(** [distanceText]: the empty string, or the text built around
    [dist.toFixed(1)]. *)
Inductive DistanceText : Type :=
| NoDistance
| KmAway (dist : JSNum).

(** The parts of the card that the code decides; the avatar and the
    styles are left out. *)
Record Card : Type := mkCard {
  card_key : string;
  isOnline : bool;
  locationText : option string;
  distanceText : DistanceText;
  rating : StarRating.Rendering;
  bioText : option string;
  action : ActionButton;
  teachesRow : option string;
  learnsRow : option string
}.

Definition renderUserCard (roleFilter : RoleFilterType)
           (currentUserLocation : option Coords) (st : RequestState)
           (targetUser : UserWithSkills) : JSResult Card :=
  let isFriend := includes (existingFriends st) (uid targetUser) in
  let requestSent := includes (sentRequests st) (uid targetUser) in
  let isOnline :=
    match status targetUser with
    | online => true
    | _ => false
    end in
  bind
    (if truthy (location targetUser) then
       if String.eqb (typeof (location targetUser)) "string" then
         match location targetUser with
         | VString s => Ok (Some s, NoDistance)
         | _ => Ok (None, NoDistance)
         end
       else if String.eqb (typeof (location targetUser)) "object" then
         match currentUserLocation with
         | Some cur =>
             bind (get_latitude (location targetUser)) (fun lat =>
             if truthyField lat then
               bind (get_latitude (location targetUser)) (fun lat2 =>
               bind (get_longitude (location targetUser)) (fun lon2 =>
               Ok (Some "Location Shared",
                   KmAway (haversineDistance
                             (mkCoords (latitude cur) (longitude cur))
                             (mkCoords lat2 lon2)))))
             else Ok (Some "Location Shared", NoDistance))
         | None => Ok (Some "Location Shared", NoDistance)
         end
       else Ok (None, NoDistance)
     else Ok (None, NoDistance))
    (fun texts =>
     Ok (mkCard
           (uid targetUser)
           isOnline
           (fst texts)
           (snd texts)
           (StarRating.StarRating
              (orZero (averageRating targetUser))
              (Some (orZero (reviewCount targetUser)))
              (Some true))
           (match bio targetUser with
            | Some b => if truthyStr b then Some b else None
            | None => None
            end)
           (if isFriend then MessageButton
            else if requestSent then PendingIcon
            else AddButton)
           (match roleFilter with
            | RoleAll | Teaches =>
                if Nat.ltb 0 (List.length (skillsTeaching targetUser))
                then Some (join ", " (skillsTeaching targetUser))
                else None
            | Learns => None
            end)
           (match roleFilter with
            | RoleAll | Learns =>
                if Nat.ltb 0 (List.length (skillsLearning targetUser))
                then Some (join ", " (skillsLearning targetUser))
                else None
            | Teaches => None
            end))).

End SkillsScreen.

Import JSExtra ConversationUtils SkillsScreen.

(* ===================================================================== *)
(** ** More notions and sample data *)
(* ===================================================================== *)

Module MoreSpec.

Local Open Scope string_scope.

(** The code units of a string. *)
Definition chars (s : string) : list ascii := list_ascii_of_string s.

(** A string without white space, and a string without underscore. *)
Definition blankFree (s : string) : bool :=
  forallb (fun c => negb (isWhiteSpace c)) (chars s).

Definition noUnderscore (s : string) : bool :=
  forallb (fun c => negb (Ascii.eqb c "_")) (chars s).

(** The fields of a candidate that the search looks at are all free of
    white space. *)
Definition fieldsBlankFree (u : UserWithSkills) : bool :=
  blankFree (displayName u)
  && blankFree (email u)
  && match bio u with
     | Some b => blankFree b
     | None => true
     end
  && forallb blankFree (skillsTeaching u)
  && forallb blankFree (skillsLearning u).

(** The number of stars that a row of glyphs stands for. *)
Definition starValue (st : StarRating.Star) : R :=
  match st with
  | StarRating.FullStar => 1
  | StarRating.HalfStar => 1 / 2
  | StarRating.EmptyStar => 0
  end.

Definition starsValue (stars : list StarRating.Star) : R :=
  fold_right (fun st acc => (starValue st + acc)%R) 0%R stars.

(** Page [p] of the results of a screen, and the pages [1 .. totalPages]
    in order. *)
Definition pageAt (s : ScreenState) (p : Z) : list UserWithSkills :=
  paginatedUsers (setCurrentPage p s).

Definition allPages (s : ScreenState) : list (list UserWithSkills) :=
  map (fun k => pageAt s (Z.of_nat k)) (seq 1 (Z.to_nat (totalPages s))).

(** The test of [handleOpenMap] and of [onMapReady] on a candidate,
    without the exception layer: the location is an object whose latitude
    and longitude are both truthy. *)
Definition mapLocated (u : UserWithSkills) : bool :=
  match location u with
  | VObject c => truthyField (latitude c) && truthyField (longitude c)
  | _ => false
  end.

(** The coordinate read from the location of a candidate. *)
Definition coordsOf (u : UserWithSkills) : Coords :=
  match location u with
  | VObject c => c
  | _ => mkCoords None None
  end.

(** What the map draws for a result, without the exception layer: a
    marker for an object and for a non-empty string, with a distance in
    the callout when the current user is known and the latitude and the
    longitude of the result are truthy. *)
Definition markerFor (cur : option Coords) (u : UserWithSkills)
  : option Marker :=
  match location u with
  | VObject c =>
      Some (mkMarker (uid u) c
              (match cur with
               | Some me =>
                   if mapLocated u then Some (haversineDistance me c)
                   else None
               | None => None
               end))
  | VString str =>
      if truthyStr str
      then Some (mkMarker (uid u) (mkCoords None None) None)
      else None
  | VUndefined | VNull => None
  end.

(** A snapshot of the query of [loadSentRequests]: the documents that the
    query matches, in the order that the store chooses. *)
Definition sentSnapshot (uid : string)
           (collection docs : list FriendRequest.t) : Prop :=
  Permutation docs (requestsFrom uid collection).

(** Sample data. *)
Definition ann : UserWithSkills :=
  mkUser "u1" "u1" "Ann" "ann@example.org" ["Guitar"] [] (Some "") VNull
         online (Some (Num 0)) (Some (Num 0)).

Definition alice : AuthUser := mkAuthUser "alice" (Some "alice@example.org").

(** A candidate at one degree north and one degree east, and a screen
    showing it, with two candidates that the map does not count, to a user
    at the same place. *)
Definition northEast : UserWithSkills :=
  candidateAt "ne" (VObject (mkCoords (Some (Num 1)) (Some (Num 1)))).

Definition mapScreen : ScreenState :=
  mkState [] [legacy; northEast; atOrigin] ["All"] false false "" "All"
          RoleAll false (Num 10)
          (Some (mkCoords (Some (Num 1)) (Some (Num 1)))) 1.

Definition idleRequests : RequestState :=
  mkRequestState [] [] None false "" false.

End MoreSpec.

Import MoreSpec.


(* ===================================================================== *)
(** ** Properties *)
(* ===================================================================== *)

(** *** Numbers and the distance function *)

Lemma div_Num (x y : R) : y <> 0%R -> div (Num x) (Num y) = Num (x / y).
Proof.
  intros Hy. unfold div. destruct (Req_dec_T y 0); [contradiction | reflexivity].
Qed.

Lemma toRad_Num (x : R) : toRad (Num x) = Num (x * PI / 180).
Proof. unfold toRad. simpl. apply div_Num. lra. Qed.

Lemma mul_comm (a b : JSNum) : mul a b = mul b a.
Proof. destruct a, b; simpl; try reflexivity. f_equal. apply Rmult_comm. Qed.

Lemma half_chord_swap (x y : JSNum) :
  sqr (Math_sin (div (toRad (sub x y)) (Num 2)))
  = sqr (Math_sin (div (toRad (sub y x)) (Num 2))).
Proof.
  destruct x as [|x], y as [|y]; try reflexivity.
  cbn [sub lift2]. rewrite !toRad_Num, !div_Num by lra.
  cbn [Math_sin lift1 sqr mul lift2]. f_equal.
  replace ((y - x) * PI / 180 / 2)%R with (- ((x - y) * PI / 180 / 2))%R by lra.
  rewrite sin_neg. ring.
Qed.

Lemma haversineDistance_sym (c1 c2 : Coords) :
  haversineDistance c1 c2 = haversineDistance c2 c1.
Proof.
  unfold haversineDistance.
  rewrite (half_chord_swap (toNumber (latitude c2)) (toNumber (latitude c1))).
  rewrite (half_chord_swap (toNumber (longitude c2)) (toNumber (longitude c1))).
  rewrite (mul_comm (Math_cos (toRad (toNumber (latitude c1))))).
  reflexivity.
Qed.

Lemma haversine_a_range_uv (u v h : R) :
  (0 <= sin v * sin v + cos (u - v) * cos (u + v) * (sin h * sin h) <= 1)%R.
Proof.
  rewrite cos_minus, cos_plus.
  pose proof (sin2_cos2 u) as Hu. pose proof (sin2_cos2 v) as Hv.
  pose proof (sin2_cos2 h) as Hh. unfold Rsqr in Hu, Hv, Hh.
  set (su := sin u) in *. set (cu := cos u) in *.
  set (sv := sin v) in *. set (cv := cos v) in *.
  set (sh := sin h) in *. set (ch := cos h) in *.
  assert (E : ((cu * cv + su * sv) * (cu * cv - su * sv)
               = cu * cu - sv * sv)%R).
  { transitivity (cu * cu * (cv * cv) - su * su * (sv * sv))%R; [ring|].
    replace (cv * cv)%R with (1 - sv * sv)%R by lra.
    replace (su * su)%R with (1 - cu * cu)%R by lra. ring. }
  rewrite E.
  assert (0 <= sh * sh)%R by nra. assert (0 <= ch * ch)%R by nra.
  assert (0 <= sv * sv)%R by nra. assert (0 <= cu * cu)%R by nra.
  assert (0 <= su * su)%R by nra. assert (0 <= cv * cv)%R by nra.
  replace (sv * sv + (cu * cu - sv * sv) * (sh * sh))%R
    with (sv * sv * (ch * ch) + cu * cu * (sh * sh))%R
    by (replace (ch * ch)%R with (1 - sh * sh)%R by lra; ring).
  split; nra.
Qed.

Lemma haversine_a_range (p1 p2 h : R) :
  (0 <= sin ((p2 - p1) / 2) * sin ((p2 - p1) / 2)
        + cos p1 * cos p2 * (sin h * sin h) <= 1)%R.
Proof.
  replace (cos p1) with (cos ((p1 + p2) / 2 - (p2 - p1) / 2))
    by (f_equal; lra).
  replace (cos p2) with (cos ((p1 + p2) / 2 + (p2 - p1) / 2))
    by (f_equal; lra).
  apply haversine_a_range_uv.
Qed.

(** On numeric coordinates the distance is a number, given by the
    haversine formula. *)
Lemma haversineDistance_Num (la1 lo1 la2 lo2 : R) :
  let a := (sin ((la2 - la1) * PI / 180 / 2) * sin ((la2 - la1) * PI / 180 / 2)
            + cos (la1 * PI / 180) * cos (la2 * PI / 180)
              * (sin ((lo2 - lo1) * PI / 180 / 2)
                 * sin ((lo2 - lo1) * PI / 180 / 2)))%R in
  haversineDistance (mkCoords (Some (Num la1)) (Some (Num lo1)))
                    (mkCoords (Some (Num la2)) (Some (Num lo2)))
  = Num (6371 * (2 * atan2R (sqrt a) (sqrt (1 - a)))).
Proof.
  intros a.
  assert (Ha : (0 <= a <= 1)%R).
  { unfold a.
    replace ((la2 - la1) * PI / 180 / 2)%R
      with ((la2 * PI / 180 - la1 * PI / 180) / 2)%R by lra.
    apply haversine_a_range. }
  unfold haversineDistance. cbn [latitude longitude toNumber sub lift2].
  rewrite !toRad_Num, !div_Num by lra.
  cbn [Math_sin Math_cos lift1 sqr mul add lift2 sub]. fold a.
  unfold Math_sqrt.
  destruct (Rlt_dec a 0); [lra|]. destruct (Rlt_dec (1 - a) 0); [lra|].
  reflexivity.
Qed.

(** The formula gives back the arc when the haversine term is the squared
    sine of half of it. *)
Lemma arc_of_half_angle (x : R) :
  (0 <= x < PI / 2)%R ->
  atan2R (sqrt (sin x * sin x)) (sqrt (1 - sin x * sin x)) = x.
Proof.
  intros [H0 H1].
  assert (Hs : (0 <= sin x)%R) by (apply sin_ge_0; lra).
  assert (Hc : (0 < cos x)%R) by (apply cos_gt_0; lra).
  rewrite sqrt_square by assumption.
  replace (1 - sin x * sin x)%R with (cos x * cos x)%R
    by (pose proof (sin2_cos2 x) as E; unfold Rsqr in E; lra).
  rewrite sqrt_square by lra.
  unfold atan2R. destruct (Rlt_dec 0 (cos x)); [|contradiction].
  change (sin x / cos x)%R with (tan x). apply atan_tan. lra.
Qed.

Lemma degreesOf_half_angle (km : R) :
  ((degreesOf km - 0) * PI / 180 / 2 = km / (2 * 6371))%R.
Proof. unfold degreesOf. pose proof PI_RGT_0. field. lra. Qed.

Lemma half_angle_range (km : R) :
  (0 <= km <= 6371)%R -> (0 <= km / (2 * 6371) < PI / 2)%R.
Proof. intros H. pose proof PI2_1. lra. Qed.

Lemma distance_eastOfOrigin (km : R) :
  (0 <= km <= 6371)%R ->
  haversineDistance origin (eastOfOrigin km) = Num km.
Proof.
  intros H. unfold origin, eastOfOrigin. rewrite haversineDistance_Num.
  cbv zeta. rewrite degreesOf_half_angle.
  replace ((0 - 0) * PI / 180 / 2)%R with 0%R by lra.
  replace (0 * PI / 180)%R with 0%R by lra.
  rewrite sin_0, cos_0.
  replace (0 * 0 + 1 * 1 * (sin (km / (2 * 6371)) * sin (km / (2 * 6371))))%R
    with (sin (km / (2 * 6371)) * sin (km / (2 * 6371)))%R by ring.
  rewrite arc_of_half_angle by (apply half_angle_range; assumption).
  f_equal. field.
Qed.

Lemma distance_northOfOrigin (km : R) :
  (0 <= km <= 6371)%R ->
  haversineDistance origin (northOfOrigin km) = Num km.
Proof.
  intros H. unfold origin, northOfOrigin. rewrite haversineDistance_Num.
  cbv zeta. rewrite degreesOf_half_angle.
  replace ((0 - 0) * PI / 180 / 2)%R with 0%R by lra.
  rewrite sin_0.
  replace (sin (km / (2 * 6371)) * sin (km / (2 * 6371))
           + cos (0 * PI / 180) * cos (degreesOf km * PI / 180) * (0 * 0))%R
    with (sin (km / (2 * 6371)) * sin (km / (2 * 6371)))%R by ring.
  rewrite arc_of_half_angle by (apply half_angle_range; assumption).
  f_equal. field.
Qed.

Lemma degreesOf_nonzero (km : R) : (0 < km)%R -> degreesOf km <> 0%R.
Proof.
  intros H. unfold degreesOf. pose proof PI_RGT_0 as HP.
  apply Rgt_not_eq. apply Rdiv_lt_0_compat; nra.
Qed.

(** *** The filter pipeline never throws *)

Lemma filterE_pure {A : Type} (f : A -> JSResult bool) (g : A -> bool)
      (l : list A) :
  (forall x, f x = Ok (g x)) -> filterE f l = Ok (filter g l).
Proof.
  intros Hfg. induction l as [|x l IH]; simpl.
  - reflexivity.
  - rewrite Hfg, IH. simpl. destruct (g x); reflexivity.
Qed.

Lemma withinRadius_pure (cur : Coords) (radius : JSNum) (u : UserWithSkills) :
  withinRadius cur radius u = Ok (keptByRadius cur radius u).
Proof.
  unfold withinRadius, keptByRadius.
  destruct (location u) as [| |s|c]; simpl; try reflexivity.
  - destruct (truthyStr s); reflexivity.
  - destruct cur as [la lo]. simpl.
    destruct (truthyField (latitude c)); simpl; [|reflexivity].
    destruct c; reflexivity.
Qed.

Lemma radiusFilter_active (cur : Coords) (radius : JSNum)
      (result : list UserWithSkills) :
  radiusFilter true (Some cur) radius result
  = Ok (filter (keptByRadius cur radius) result).
Proof. apply filterE_pure. intros u. apply withinRadius_pure. Qed.

Lemma radiusFilter_total (b : bool) (cur : option Coords) (radius : JSNum)
      (result : list UserWithSkills) :
  radiusFilter b cur radius result
  = Ok (match b, cur with
        | true, Some c => filter (keptByRadius c radius) result
        | _, _ => result
        end).
Proof.
  destruct b, cur as [c|]; try reflexivity. apply radiusFilter_active.
Qed.

(** *** Subsequences *)

Lemma Subsequence_refl {A : Type} (l : list A) : Subsequence l l.
Proof. induction l; constructor; assumption. Qed.

Lemma Subsequence_trans {A : Type} (l1 l2 l3 : list A) :
  Subsequence l1 l2 -> Subsequence l2 l3 -> Subsequence l1 l3.
Proof.
  intros H12 H23. revert l1 H12.
  induction H23 as [|x l2 l3 _ IH|x l2 l3 _ IH]; intros l1 H12.
  - assumption.
  - inversion H12; subst.
    + apply sub_keep. apply IH. assumption.
    + apply sub_drop. apply IH. assumption.
  - apply sub_drop. apply IH. assumption.
Qed.

Lemma Subsequence_filter {A : Type} (f : A -> bool) (l : list A) :
  Subsequence (filter f l) l.
Proof.
  induction l as [|x l IH]; simpl.
  - constructor.
  - destruct (f x); constructor; assumption.
Qed.

Lemma skillRoleFilter_Subsequence (sk : string) (r : RoleFilterType)
      (l : list UserWithSkills) :
  Subsequence (skillRoleFilter sk r l) l.
Proof.
  unfold skillRoleFilter.
  destruct (negb (sk =? "All")); [apply Subsequence_filter|].
  destruct r; try apply Subsequence_filter. apply Subsequence_refl.
Qed.

Lemma searchTextFilter_Subsequence (txt : string) (l : list UserWithSkills) :
  Subsequence (searchTextFilter txt l) l.
Proof.
  unfold searchTextFilter.
  destruct (truthyStr (trim txt)); [apply Subsequence_filter|].
  apply Subsequence_refl.
Qed.

(** C6.  For every state of the screen (candidate set, filter state and
    self coordinate), [applyFilters] completes without an exception and
    the list it stores is a subsequence of the candidate list: the kept
    candidates appear in the relative order they have in the input. *)
Theorem applyFilters_preserves_order (s : ScreenState) :
  exists out : list UserWithSkills,
    filterPipeline s = Ok out
    /\ applyFilters s = Ok (setCurrentPage 1 (setFilteredUsers out s))
    /\ Subsequence out (users s).
Proof.
  unfold applyFilters, filterPipeline. rewrite radiusFilter_total.
  eexists. split; [reflexivity|]. split; [reflexivity|].
  eapply Subsequence_trans; [|apply skillRoleFilter_Subsequence].
  eapply Subsequence_trans; [|apply searchTextFilter_Subsequence].
  destruct (useRadiusFilter s), (currentUserLocation s);
    first [apply Subsequence_filter | apply Subsequence_refl].
Qed.

(** *** The radius stage *)

Lemma filterPipeline_eq (s : ScreenState) :
  filterPipeline s
  = Ok (let staged := searchTextFilter (searchText s)
                        (skillRoleFilter (selectedSkill s) (roleFilter s)
                                         (users s)) in
        match useRadiusFilter s, currentUserLocation s with
        | true, Some c => filter (keptByRadius c (radius s)) staged
        | _, _ => staged
        end).
Proof. unfold filterPipeline. apply radiusFilter_total. Qed.

Lemma not_kept_not_in_pipeline (s : ScreenState) (cur : Coords)
      (u : UserWithSkills) :
  useRadiusFilter s = true ->
  currentUserLocation s = Some cur ->
  keptByRadius cur (radius s) u = false ->
  exists out, filterPipeline s = Ok out /\ ~ In u out.
Proof.
  intros Hon Hcur Hk. rewrite filterPipeline_eq, Hon, Hcur.
  eexists. split; [reflexivity|].
  cbv zeta. rewrite filter_In. intros [_ H]. congruence.
Qed.

(** C4.  With the radius toggle on and no coordinate for the current user,
    the radius stage returns its input unchanged, whatever the locations
    of the candidates are, so the pipeline stops at the output of the
    search stage.  The coordinate is absent exactly in this way after the
    profile listener has seen no document, or a document without
    location. *)
Theorem radius_stage_skipped_without_self_coordinate (s : ScreenState) :
  useRadiusFilter s = true ->
  currentUserLocation s = None ->
  (forall result : list UserWithSkills,
      radiusFilter (useRadiusFilter s) (currentUserLocation s) (radius s)
                   result = Ok result)
  /\ filterPipeline s
     = Ok (searchTextFilter (searchText s)
             (skillRoleFilter (selectedSkill s) (roleFilter s) (users s)))
  /\ (forall (data : option DocumentData.t) (s0 : ScreenState),
         match data with
         | Some d => truthy (DocumentData.location d) = false
         | None => True
         end ->
         onUserSnapshot data s0 = Ok (setCurrentUserLocation None s0)).
Proof.
  intros Hon Hcur. split; [|split].
  - intros result. rewrite Hon, Hcur. reflexivity.
  - rewrite filterPipeline_eq, Hon, Hcur. reflexivity.
  - intros [d|] s0 H; simpl; [rewrite H|]; reflexivity.
Qed.

Lemma haversineDistance_NaN_longitude (c1 c2 : Coords) :
  isNumber (longitude c2) = false -> haversineDistance c1 c2 = NaN.
Proof.
  intros H. unfold haversineDistance.
  assert (E : toNumber (longitude c2) = NaN).
  { destruct (longitude c2) as [[|x]|]; simpl in *; congruence. }
  rewrite E. cbn [sub lift2]. unfold toRad at 2. cbn [mul lift2 div].
  cbn [Math_sin lift1 sqr mul lift2].
  destruct (mul (Math_cos _) (Math_cos _)); cbn [mul lift2];
    destruct (sqr _); reflexivity.
Qed.

Lemma absent_not_kept (cur : Coords) (radius : JSNum) (u : UserWithSkills) :
  truthy (location u) = false -> keptByRadius cur radius u = false.
Proof.
  unfold keptByRadius. destruct (location u); simpl; congruence.
Qed.

Lemma truthyNum_zero : truthyNum (Num 0) = false.
Proof. simpl. destruct (Req_dec_T 0 0); [reflexivity | contradiction]. Qed.

Lemma truthyNum_nonzero (x : R) : x <> 0%R -> truthyNum (Num x) = true.
Proof.
  intros H. simpl. destruct (Req_dec_T x 0); [contradiction | reflexivity].
Qed.

Lemma le_Num_true (x y : R) : (x <= y)%R -> le (Num x) (Num y) = true.
Proof. intros H. simpl. destruct (Rle_dec x y); [reflexivity | contradiction]. Qed.

Lemma le_Num_false (x y : R) : (y < x)%R -> le (Num x) (Num y) = false.
Proof. intros H. simpl. destruct (Rle_dec x y); [lra | reflexivity]. Qed.

Lemma zero_latitude_not_kept (cur : Coords) (radius : JSNum)
      (u : UserWithSkills) (lon : JSField) :
  location u = VObject (mkCoords (Some (Num 0)) lon) ->
  keptByRadius cur radius u = false.
Proof.
  intros Hloc. unfold keptByRadius. rewrite Hloc. cbn [latitude truthyField].
  rewrite truthyNum_zero. reflexivity.
Qed.

(** C9.  While the radius filter is active and the coordinate of the
    current user is known, a candidate whose stored latitude is exactly
    [0] is rejected by the callback before any distance is computed, so it
    is absent from the output whatever its longitude, the position of the
    current user and the radius are. *)
Theorem zero_latitude_candidate_removed
        (s : ScreenState) (cur : Coords) (u : UserWithSkills)
        (lon : JSField) :
  useRadiusFilter s = true ->
  currentUserLocation s = Some cur ->
  location u = VObject (mkCoords (Some (Num 0)) lon) ->
  withinRadius cur (radius s) u = Ok false
  /\ exists out, filterPipeline s = Ok out /\ ~ In u out.
Proof.
  intros Hon Hcur Hloc.
  pose proof (zero_latitude_not_kept cur (radius s) u lon Hloc) as Hk.
  split.
  - rewrite withinRadius_pure, Hk. reflexivity.
  - eapply not_kept_not_in_pipeline; eassumption.
Qed.

Lemma radius_stage_skipped_witness :
  useRadiusFilter (radiusOn [north49; north51; nowhere] None) = true
  /\ currentUserLocation (radiusOn [north49; north51; nowhere] None) = None
  /\ filterPipeline (radiusOn [north49; north51; nowhere] None)
     = Ok [north49; north51; nowhere]
  /\ onUserSnapshot None initialState
     = Ok (setCurrentUserLocation None initialState).
Proof.
  destruct (radius_stage_skipped_without_self_coordinate
              (radiusOn [north49; north51; nowhere] None)
              eq_refl eq_refl) as (_ & Hpipe & Hsnap).
  split; [reflexivity|]. split; [reflexivity|]. split.
  - exact Hpipe.
  - exact (Hsnap None initialState I).
Defined.

Lemma zero_latitude_witness :
  location atOrigin = VObject (mkCoords (Some (Num 0)) (Some (Num 0)))
  /\ withinRadius origin (Num 5) atOrigin = Ok false.
Proof.
  split; [reflexivity|].
  exact (proj1 (zero_latitude_candidate_removed
                  (radiusOn [atOrigin] (Some origin)) origin atOrigin
                  (Some (Num 0)) eq_refl eq_refl eq_refl)).
Defined.

(** The verdict of the callback on a candidate that has a coordinate with
    a latitude other than [0]: the comparison of the distance with the
    radius. *)
Lemma withinRadius_of_distance (cur : Coords) (u : UserWithSkills)
      (lat lon d r : R) :
  hasCoordinate u lat lon ->
  lat <> 0%R ->
  haversineDistance cur (mkCoords (Some (Num lat)) (Some (Num lon))) = Num d ->
  withinRadius cur (Num r) u = Ok (le (Num d) (Num r)).
Proof.
  intros Hu Hlat Hd. rewrite withinRadius_pure. unfold keptByRadius.
  rewrite Hu. cbn [latitude truthyField]. rewrite truthyNum_nonzero by assumption.
  rewrite Hd. reflexivity.
Qed.

(** C1.  The screen of a user at [(0,0)] with the radius filter at 5 km,
    and a candidate on the equator whose coordinate [(0, lon)] is at 4.9 km
    from the user: the distance function returns 4.9, yet the callback
    answers [false] and the radius stage empties the list.  The candidate
    has a coordinate and is within the radius; it is dropped because its
    latitude [0] is falsy in the guard of the callback. *)
Theorem equator_candidate_within_radius_dropped :
  hasCoordinate east49 0 (degreesOf (49 / 10))
  /\ haversineDistance origin (eastOfOrigin (49 / 10)) = Num (49 / 10)
  /\ le (Num (49 / 10)) (Num 5) = true
  /\ withinRadius origin (Num 5) east49 = Ok false
  /\ filterPipeline (radiusOn [east49] (Some origin)) = Ok [].
Proof.
  assert (Hk : keptByRadius origin (Num 5) east49 = false).
  { apply (zero_latitude_not_kept origin (Num 5) east49
             (Some (Num (degreesOf (49 / 10))))). reflexivity. }
  split; [reflexivity|]. split; [|split; [|split]].
  - apply distance_eastOfOrigin. lra.
  - apply le_Num_true. lra.
  - rewrite withinRadius_pure, Hk. reflexivity.
  - rewrite filterPipeline_eq.
    change (Ok (filter (keptByRadius origin (Num 5)) [east49]) = Ok []).
    cbn [filter]. rewrite Hk. reflexivity.
Qed.

(** *** The loader *)

Lemma visit_eq (uid : option string) (us : list UserWithSkills)
      (set : JSSet) (doc : QueryDocumentSnapshot) :
  visit uid (us, set) doc
  = if eligible uid doc
    then (us ++ [toUser doc],
          Set_addAll
            (Set_addAll set
               (orEmpty (DocumentData.skillsTeaching (doc_data doc))))
            (orEmpty (DocumentData.skillsLearning (doc_data doc))))
    else (us, set).
Proof.
  unfold visit, eligible.
  destruct (differsFrom (doc_id doc) uid); [|reflexivity].
  destruct (nonEmpty _ || nonEmpty _); reflexivity.
Qed.

Lemma collect_users_from (uid : option string)
      (docs : list QueryDocumentSnapshot) :
  forall us set,
    fst (fold_left (visit uid) docs (us, set))
    = us ++ map toUser (filter (eligible uid) docs).
Proof.
  induction docs as [|doc docs IH]; intros us set; cbn [fold_left filter].
  - simpl. rewrite app_nil_r. reflexivity.
  - rewrite visit_eq. destruct (eligible uid doc).
    + rewrite IH, <- app_assoc. reflexivity.
    + apply IH.
Qed.

Lemma loadUsers_users (uid : option string)
      (docs : list QueryDocumentSnapshot) (s : ScreenState) :
  users (loadUsers uid (Ok docs) s) = fst (collect uid docs).
Proof.
  unfold loadUsers. destruct (collect uid docs) as [us set]. reflexivity.
Qed.

Lemma loadUsers_allSkills (uid : option string)
      (docs : list QueryDocumentSnapshot) (s : ScreenState) :
  allSkills (loadUsers uid (Ok docs) s) = "All" :: sort (snd (collect uid docs)).
Proof.
  unfold loadUsers. destruct (collect uid docs) as [us set]. reflexivity.
Qed.

Lemma nonEmpty_iff (a : option (list string)) :
  nonEmpty a = true <-> orEmpty a <> [].
Proof.
  destruct a as [[|x l]|]; simpl; split; intros H;
    try discriminate; try reflexivity; congruence.
Qed.

Lemma differsFrom_iff (i : string) (uid : option string) :
  differsFrom i uid = true <-> Some i <> uid.
Proof.
  destruct uid as [u|]; simpl.
  - rewrite negb_true_iff, String.eqb_neq. split; congruence.
  - split; [discriminate | reflexivity].
Qed.

Lemma eligible_iff (uid : option string) (doc : QueryDocumentSnapshot) :
  eligible uid doc = true
  <-> Some (doc_id doc) <> uid
      /\ (orEmpty (DocumentData.skillsTeaching (doc_data doc)) <> []
          \/ orEmpty (DocumentData.skillsLearning (doc_data doc)) <> []).
Proof.
  unfold eligible.
  rewrite andb_true_iff, orb_true_iff, differsFrom_iff, !nonEmpty_iff.
  reflexivity.
Qed.

Lemma In_loaded_users (uid : option string)
      (docs : list QueryDocumentSnapshot) (s : ScreenState)
      (u : UserWithSkills) :
  In u (users (loadUsers uid (Ok docs) s))
  <-> exists doc, In doc docs /\ eligible uid doc = true /\ u = toUser doc.
Proof.
  rewrite loadUsers_users. unfold collect. rewrite collect_users_from.
  simpl. rewrite in_map_iff. split.
  - intros (doc & Hu & Hin). apply filter_In in Hin. destruct Hin.
    exists doc. auto.
  - intros (doc & Hin & He & Hu). exists doc. split; [auto|].
    apply filter_In. auto.
Qed.

(** C2.  After a successful fetch the candidate list is the image, in the
    order of the fetch, of the documents whose id differs from the id of
    the current user and whose taught or learned list is non-empty (a
    missing list counts as empty); hence a record is a candidate if and
    only if it comes from such a document. *)
Theorem loadUsers_candidate_set
        (uid : option string) (docs : list QueryDocumentSnapshot)
        (s : ScreenState) :
  users (loadUsers uid (Ok docs) s)
  = map toUser (filter (eligible uid) docs)
  /\ forall u : UserWithSkills,
      In u (users (loadUsers uid (Ok docs) s))
      <-> exists doc,
          In doc docs /\ u = toUser doc
          /\ Some (doc_id doc) <> uid
          /\ (orEmpty (DocumentData.skillsTeaching (doc_data doc)) <> []
              \/ orEmpty (DocumentData.skillsLearning (doc_data doc)) <> []).
Proof.
  split.
  - rewrite loadUsers_users. unfold collect. apply collect_users_from.
  - intros u. rewrite In_loaded_users. split.
    + intros (doc & Hin & He & Hu). exists doc.
      apply eligible_iff in He. tauto.
    + intros (doc & Hin & Hu & He). exists doc.
      split; [auto|]. split; [|auto]. apply eligible_iff. exact He.
Qed.

Example loadUsers_sample_users :
  map id (users (loadUsers (Some "me") (Ok sampleDocs) initialState))
  = ["a"; "c"].
Proof. reflexivity. Qed.

Example loadUsers_sample_skills :
  allSkills (loadUsers (Some "me") (Ok sampleDocs) initialState)
  = ["All"; "Baking"; "Chess"; "Guitar"; "Piano"].
Proof. reflexivity. Qed.

(** *** The set of skills and its sorting *)

Lemma includes_In (arr : list string) (x : string) :
  includes arr x = true <-> In x arr.
Proof.
  unfold includes. rewrite existsb_exists. split.
  - intros (y & Hin & He). apply String.eqb_eq in He. subst. assumption.
  - intros Hin. exists x. split; [assumption | apply String.eqb_refl].
Qed.

Lemma Set_add_In (set : JSSet) (x y : string) :
  In y (Set_add set x) <-> In y set \/ y = x.
Proof.
  unfold Set_add. destruct (includes set x) eqn:E.
  - apply includes_In in E. split; [auto|]. intros [H|H]; subst; assumption.
  - rewrite in_app_iff. simpl. intuition.
Qed.

Lemma Set_add_NoDup (set : JSSet) (x : string) :
  NoDup set -> NoDup (Set_add set x).
Proof.
  intros H. unfold Set_add. destruct (includes set x) eqn:E; [assumption|].
  assert (Hx : ~ In x set).
  { intros Hin. apply includes_In in Hin. congruence. }
  clear E. induction set as [|z set IH]; simpl.
  - constructor; [auto | constructor].
  - inversion H; subst. constructor.
    + rewrite in_app_iff. simpl. intros [Hz|[Hz|[]]]; [auto|].
      subst. apply Hx. left. reflexivity.
    + apply IH; [assumption|]. intros Hin. apply Hx. right. assumption.
Qed.

Lemma Set_addAll_In (arr : list string) :
  forall (set : JSSet) (y : string),
    In y (Set_addAll set arr) <-> In y set \/ In y arr.
Proof.
  unfold Set_addAll. induction arr as [|x arr IH]; intros set y; simpl.
  - tauto.
  - rewrite IH, Set_add_In. intuition.
Qed.

Lemma Set_addAll_NoDup (arr : list string) :
  forall set : JSSet, NoDup set -> NoDup (Set_addAll set arr).
Proof.
  unfold Set_addAll. induction arr as [|x arr IH]; intros set H; simpl.
  - assumption.
  - apply IH. apply Set_add_NoDup. assumption.
Qed.

Lemma collect_skills_NoDup (uid : option string)
      (docs : list QueryDocumentSnapshot) :
  forall us set,
    NoDup set -> NoDup (snd (fold_left (visit uid) docs (us, set))).
Proof.
  induction docs as [|doc docs IH]; intros us set H; cbn [fold_left].
  - assumption.
  - rewrite visit_eq. destruct (eligible uid doc).
    + apply IH. apply Set_addAll_NoDup, Set_addAll_NoDup. assumption.
    + apply IH. assumption.
Qed.

Lemma collect_skills_In (uid : option string)
      (docs : list QueryDocumentSnapshot) (sk : string) :
  forall us set,
    In sk (snd (fold_left (visit uid) docs (us, set)))
    <-> In sk set
        \/ exists doc,
            In doc docs /\ eligible uid doc = true
            /\ (In sk (orEmpty (DocumentData.skillsTeaching (doc_data doc)))
                \/ In sk (orEmpty (DocumentData.skillsLearning (doc_data doc)))).
Proof.
  induction docs as [|doc docs IH]; intros us set; cbn [fold_left].
  - simpl. split; [auto|]. intros [H|(doc & [] & _)]. assumption.
  - rewrite visit_eq. destruct (eligible uid doc) eqn:E; rewrite IH.
    + rewrite !Set_addAll_In. split.
      * intros [[[H|H]|H]|(d & Hin & He & Hs)].
        -- left. assumption.
        -- right. exists doc. simpl. auto.
        -- right. exists doc. simpl. auto.
        -- right. exists d. simpl. auto.
      * intros [H|(d & [Hd|Hin] & He & Hs)].
        -- auto.
        -- subst d. destruct Hs; auto.
        -- right. exists d. auto.
    + split.
      * intros [H|(d & Hin & He & Hs)]; [auto|].
        right. exists d. simpl. auto.
      * intros [H|(d & [Hd|Hin] & He & Hs)]; [auto| |].
        -- subst d. congruence.
        -- right. exists d. auto.
Qed.

Lemma insert_Permutation (x : string) (l : list string) :
  Permutation (insert x l) (x :: l).
Proof.
  induction l as [|y l IH]; simpl.
  - apply Permutation_refl.
  - destruct (x <=? y)%string.
    + apply Permutation_refl.
    + eapply perm_trans; [apply perm_skip, IH | apply perm_swap].
Qed.

Lemma sort_Permutation (l : list string) : Permutation (sort l) l.
Proof.
  unfold sort. induction l as [|x l IH]; simpl.
  - constructor.
  - eapply perm_trans; [apply insert_Permutation | apply perm_skip, IH].
Qed.

Lemma insert_Sorted (x : string) (l : list string) :
  Sorted (fun a b => (a <=? b)%string = true) l ->
  Sorted (fun a b => (a <=? b)%string = true) (insert x l).
Proof.
  induction l as [|y l IH]; intros H; simpl.
  - repeat constructor.
  - destruct (x <=? y)%string eqn:E.
    + constructor; [assumption | constructor; assumption].
    + inversion H as [|? ? Hs Hhd]; subst.
      assert (Hyx : (y <=? x)%string = true).
      { destruct (String.leb_total x y); congruence. }
      constructor; [apply IH; assumption|].
      destruct l as [|z l]; simpl.
      * constructor. assumption.
      * destruct (x <=? z)%string; constructor; [assumption|].
        inversion Hhd; subst. assumption.
Qed.

Lemma sort_Sorted (l : list string) :
  Sorted (fun a b => (a <=? b)%string = true) (sort l).
Proof.
  unfold sort. induction l as [|x l IH]; simpl.
  - constructor.
  - apply insert_Sorted. assumption.
Qed.

Lemma compare_Lt_lex_lt (s1 s2 : string) :
  String.compare s1 s2 = Lt -> lex_lt s1 s2.
Proof.
  revert s2. induction s1 as [|c1 s1 IH]; intros [|c2 s2] H; simpl in H;
    try discriminate.
  - constructor.
  - destruct (Ascii.compare c1 c2) eqn:E; try discriminate.
    + apply Ascii.compare_eq_iff in E. subst. apply lex_tail, IH. assumption.
    + apply lex_head. unfold Ascii.compare in E.
      apply N.compare_lt_iff in E. exact E.
Qed.

Lemma lex_lt_compare_Lt (s1 s2 : string) :
  lex_lt s1 s2 -> String.compare s1 s2 = Lt.
Proof.
  induction 1 as [c s|c1 c2 s1 s2 Hc|c s1 s2 _ IH]; simpl.
  - reflexivity.
  - unfold Ascii.compare. apply N.compare_lt_iff in Hc.
    unfold code in Hc. rewrite Hc. reflexivity.
  - unfold Ascii.compare. rewrite N.compare_refl. assumption.
Qed.

Lemma lex_lt_trans (s1 s2 s3 : string) :
  lex_lt s1 s2 -> lex_lt s2 s3 -> lex_lt s1 s3.
Proof.
  intros H12. revert s3.
  induction H12 as [c s|c1 c2 s1 s2 Hc|c s1 s2 _ IH]; intros s3 H23;
    inversion H23; subst.
  - constructor.
  - constructor.
  - apply lex_head. eapply N.lt_trans; eassumption.
  - apply lex_head. assumption.
  - apply lex_head. assumption.
  - apply lex_tail. apply IH. assumption.
Qed.

Lemma Sorted_leb_NoDup_lex (l : list string) :
  Sorted (fun a b => (a <=? b)%string = true) l ->
  NoDup l ->
  StronglySorted lex_lt l.
Proof.
  intros Hs Hn. apply Sorted_StronglySorted.
  { intros a b c. apply lex_lt_trans. }
  induction Hs as [|a l Hs IH Hhd]; constructor.
  - apply IH. inversion Hn. assumption.
  - destruct Hhd as [|b l Hab]; constructor.
    apply compare_Lt_lex_lt. unfold String.leb in Hab.
    destruct (String.compare a b) eqn:E; try reflexivity; try discriminate.
    apply String.compare_eq_iff in E. subst.
    apply NoDup_cons_iff in Hn. destruct Hn as [Hnotin _].
    exfalso. apply Hnotin. left. reflexivity.
Qed.

(** C10.  After a successful load the list behind the skill selector is
    the sentinel ["All"] followed by the skill names of the taught and
    learned lists of the included candidates, each name once, in strictly
    ascending lexicographic order. *)
Theorem loadUsers_skill_selector
        (uid : option string) (docs : list QueryDocumentSnapshot)
        (s : ScreenState) :
  exists names : list string,
    allSkills (loadUsers uid (Ok docs) s) = "All" :: names
    /\ StronglySorted lex_lt names
    /\ NoDup names
    /\ forall sk : string,
        In sk names
        <-> exists u : UserWithSkills,
            In u (users (loadUsers uid (Ok docs) s))
            /\ (In sk (skillsTeaching u) \/ In sk (skillsLearning u)).
Proof.
  exists (sort (snd (collect uid docs))).
  assert (Hn : NoDup (sort (snd (collect uid docs)))).
  { eapply Permutation_NoDup; [apply Permutation_sym, sort_Permutation|].
    apply collect_skills_NoDup. constructor. }
  split; [apply loadUsers_allSkills|]. split; [|split].
  - apply Sorted_leb_NoDup_lex; [apply sort_Sorted | exact Hn].
  - exact Hn.
  - intros sk. split.
    + intros Hin. apply (Permutation_in _ (sort_Permutation _)) in Hin.
      apply collect_skills_In in Hin.
      destruct Hin as [[]|(doc & Hd & He & Hs)].
      exists (toUser doc). split; [|exact Hs].
      apply In_loaded_users. exists doc. auto.
    + intros (u & Hu & Hs). apply In_loaded_users in Hu.
      destruct Hu as (doc & Hd & He & ->).
      apply (Permutation_in _ (Permutation_sym (sort_Permutation _))).
      apply collect_skills_In. right. exists doc. auto.
Qed.

(** *** The skill and role stage *)

Lemma positive_length_iff {A : Type} (l : list A) :
  Nat.ltb 0 (List.length l) = true <-> l <> [].
Proof.
  destruct l; simpl; split; intros H; try discriminate; try reflexivity;
    congruence.
Qed.

Lemma skillRoleFilter_specific (sk : string) (r : RoleFilterType)
      (candidates : list UserWithSkills) (u : UserWithSkills) :
  sk <> "All" ->
  In u (skillRoleFilter sk r candidates)
  <-> In u candidates
      /\ match r with
         | Teaches => In sk (skillsTeaching u)
         | Learns => In sk (skillsLearning u)
         | RoleAll => In sk (skillsTeaching u) \/ In sk (skillsLearning u)
         end.
Proof.
  intros Hsk. unfold skillRoleFilter.
  apply String.eqb_neq in Hsk. rewrite Hsk. cbn [negb].
  rewrite filter_In.
  destruct r; rewrite ?orb_true_iff, !includes_In; reflexivity.
Qed.

Lemma skillRoleFilter_sentinel (r : RoleFilterType)
      (candidates : list UserWithSkills) (u : UserWithSkills) :
  In u (skillRoleFilter "All" r candidates)
  <-> In u candidates
      /\ match r with
         | Teaches => skillsTeaching u <> []
         | Learns => skillsLearning u <> []
         | RoleAll => True
         end.
Proof.
  unfold skillRoleFilter.
  change (negb ("All" =? "All")%string) with false. cbv iota.
  destruct r; rewrite ?filter_In, ?positive_length_iff; tauto.
Qed.

Lemma filterPipeline_skill_only (s : ScreenState) :
  searchText s = "" ->
  useRadiusFilter s = false ->
  filterPipeline s
  = Ok (skillRoleFilter (selectedSkill s) (roleFilter s) (users s)).
Proof.
  intros Htxt Hoff. rewrite filterPipeline_eq, Htxt, Hoff. reflexivity.
Qed.

(** C3.  The skill and role stage keeps a candidate [u] exactly when: for
    a selected skill other than the sentinel ["All"], the skill is in the
    taught list (role [Teaches]), in the learned list (role [Learns]), or
    in one of the two (role [All]); for the sentinel, the taught list is
    non-empty (role [Teaches]), the learned list is non-empty (role
    [Learns]), or always (role [All]).  In particular, on a screen with
    three candidates, no search text and no radius filter, selecting
    ["Guitar"] with role [Teaches] when [X] is the only candidate that has
    ["Guitar"] in its taught list leaves exactly [X]. *)
Theorem skill_role_stage
        (sk : string) (r : RoleFilterType)
        (candidates : list UserWithSkills) (u : UserWithSkills) :
  (sk <> "All" ->
   (In u (skillRoleFilter sk r candidates)
    <-> In u candidates
        /\ match r with
           | Teaches => In sk (skillsTeaching u)
           | Learns => In sk (skillsLearning u)
           | RoleAll => In sk (skillsTeaching u) \/ In sk (skillsLearning u)
           end))
  /\ (In u (skillRoleFilter "All" r candidates)
      <-> In u candidates
          /\ match r with
             | Teaches => skillsTeaching u <> []
             | Learns => skillsLearning u <> []
             | RoleAll => True
             end)
  /\ (forall (s : ScreenState) (a b c X : UserWithSkills),
         users s = [a; b; c] ->
         selectedSkill s = "Guitar" ->
         roleFilter s = Teaches ->
         searchText s = "" ->
         useRadiusFilter s = false ->
         In X [a; b; c] ->
         In "Guitar" (skillsTeaching X) ->
         (forall v, In v [a; b; c] -> In "Guitar" (skillsTeaching v) -> v = X) ->
         exists out,
           filterPipeline s = Ok out /\ forall v, In v out <-> v = X).
Proof.
  split; [|split].
  - apply skillRoleFilter_specific.
  - apply skillRoleFilter_sentinel.
  - intros s a b c X Hus Hsk Hr Htxt Hoff HX HG Honly.
    rewrite filterPipeline_skill_only by assumption.
    rewrite Hus, Hsk, Hr. eexists. split; [reflexivity|].
    intros v. rewrite skillRoleFilter_specific by discriminate. split.
    + intros [Hv Hg]. apply Honly; assumption.
    + intros ->. split; assumption.
Qed.

Lemma skill_role_stage_witness :
  "Guitar" <> "All"
  /\ In xavier (skillRoleFilter "Guitar" Teaches [yann; xavier; zoe])
  /\ exists out,
      filterPipeline guitarTeachers = Ok out
      /\ forall v, In v out <-> v = xavier.
Proof.
  destruct (skill_role_stage "Guitar" Teaches [yann; xavier; zoe] xavier)
    as (Hspec & _ & Hex).
  split; [discriminate|]. split.
  - apply Hspec; [discriminate|]. simpl. auto.
  - apply (Hex guitarTeachers yann xavier zoe xavier);
      try reflexivity; simpl; auto.
    intros v Hv Hg.
    destruct Hv as [<-|[<-|[<-|[]]]]; simpl in Hg;
      first [reflexivity | contradiction | idtac].
    destruct Hg as [Hg|[]]. discriminate Hg.
Defined.

Example guitar_teachers_run :
  filterPipeline guitarTeachers = Ok [xavier].
Proof. reflexivity. Qed.

(** *** Pagination *)

Lemma slice_window {A : Type} (l : list A) (a b : Z) :
  (0 <= a <= b)%Z ->
  slice l a b = firstn (Z.to_nat (b - a)) (skipn (Z.to_nat a) l).
Proof.
  intros H. unfold slice.
  destruct (Z.ltb_spec a 0) as [?|_]; [lia|].
  destruct (Z.ltb_spec b 0) as [?|_]; [lia|].
  set (len := Z.of_nat (List.length l)).
  destruct (Z.le_gt_cases a len) as [Ha|Ha].
  - rewrite (Z.min_l a len) by assumption.
    destruct (Z.le_gt_cases b len) as [Hb|Hb].
    + rewrite (Z.min_l b len) by assumption. reflexivity.
    + rewrite (Z.min_r b len) by lia.
      rewrite !firstn_all2; [reflexivity| |]; rewrite length_skipn;
        unfold len in *; lia.
  - rewrite (Z.min_r a len) by lia. rewrite (Z.min_r b len) by lia.
    rewrite !skipn_all2 by (unfold len in *; lia).
    rewrite !firstn_nil. reflexivity.
Qed.

Lemma paginatedUsers_window (s : ScreenState) :
  (1 <= currentPage s)%Z ->
  paginatedUsers s
  = firstn 10 (skipn (Z.to_nat ((currentPage s - 1) * 10)) (filteredUsers s)).
Proof.
  intros H. unfold paginatedUsers, ITEMS_PER_PAGE.
  rewrite slice_window by lia. f_equal. lia.
Qed.

Lemma paginatedUsers_length (s : ScreenState) :
  (1 <= currentPage s)%Z ->
  Z.of_nat (List.length (paginatedUsers s))
  = Z.max 0 (Z.min 10 (Z.of_nat (List.length (filteredUsers s))
                       - (currentPage s - 1) * 10)).
Proof.
  intros H. rewrite paginatedUsers_window by assumption.
  rewrite length_firstn, length_skipn. lia.
Qed.

Lemma totalPages_bounds (s : ScreenState) :
  (10 * (totalPages s - 1) < Z.of_nat (List.length (filteredUsers s))
   <= 10 * totalPages s)%Z.
Proof.
  unfold totalPages, Math_ceil_div, ITEMS_PER_PAGE.
  set (n := Z.of_nat (List.length (filteredUsers s))).
  pose proof (Z.div_mod (- n) 10 ltac:(lia)).
  pose proof (Z.mod_pos_bound (- n) 10 ltac:(lia)). lia.
Qed.

Lemma nextPage_filteredUsers (s : ScreenState) :
  filteredUsers (nextPage s) = filteredUsers s.
Proof. unfold nextPage. destruct (_ <? _)%Z; reflexivity. Qed.

Lemma prevPage_filteredUsers (s : ScreenState) :
  filteredUsers (prevPage s) = filteredUsers s.
Proof. unfold prevPage. destruct (_ <? _)%Z; reflexivity. Qed.

Lemma nextPage_totalPages (s : ScreenState) :
  totalPages (nextPage s) = totalPages s.
Proof. unfold totalPages. rewrite nextPage_filteredUsers. reflexivity. Qed.

Lemma prevPage_totalPages (s : ScreenState) :
  totalPages (prevPage s) = totalPages s.
Proof. unfold totalPages. rewrite prevPage_filteredUsers. reflexivity. Qed.

Lemma nextPage_in_range (s : ScreenState) :
  (1 <= currentPage s <= totalPages s)%Z ->
  (1 <= currentPage (nextPage s) <= totalPages (nextPage s))%Z.
Proof.
  intros H. rewrite nextPage_totalPages. unfold nextPage.
  destruct (Z.ltb_spec (currentPage s) (totalPages s)); simpl; lia.
Qed.

Lemma prevPage_in_range (s : ScreenState) :
  (1 <= currentPage s <= totalPages s)%Z ->
  (1 <= currentPage (prevPage s) <= totalPages (prevPage s))%Z.
Proof.
  intros H. rewrite prevPage_totalPages. unfold prevPage.
  destruct (Z.ltb_spec 1 (currentPage s)); simpl; lia.
Qed.

Lemma presses_in_range (acts : list PageAction) :
  forall s : ScreenState,
    (1 <= currentPage s <= totalPages s)%Z ->
    (1 <= currentPage (fold_left press acts s)
     <= totalPages (fold_left press acts s))%Z
    /\ filteredUsers (fold_left press acts s) = filteredUsers s.
Proof.
  induction acts as [|a acts IH]; intros s H; simpl.
  - split; [assumption | reflexivity].
  - destruct a; simpl.
    + destruct (IH (nextPage s) (nextPage_in_range s H)) as [H1 H2].
      split; [assumption|]. rewrite H2. apply nextPage_filteredUsers.
    + destruct (IH (prevPage s) (prevPage_in_range s H)) as [H1 H2].
      split; [assumption|]. rewrite H2. apply prevPage_filteredUsers.
Qed.

(** C5.  Page [p >= 1] shows the 10 results that follow the first
    [10 * (p - 1)] ones: every page before the last has exactly 10 items
    and the last one has the remaining 1 to 10.  With 25 results there are
    3 pages, page 1 has 10 items, page 3 has 5, and the next-page
    operation on page 3 changes nothing.  In general the next-page
    operation on the last page and the previous-page operation on page 1
    return the state unchanged; page 1, where [applyFilters] puts the
    screen, is within [[1, ceil(total / 10)]] as soon as there is a result
    (the screen shows the two buttons in that case only), and a current
    page within that interval stays there under any sequence of the two
    operations. *)
Theorem pagination_pages (s : ScreenState) :
  ((1 <= currentPage s)%Z ->
   paginatedUsers s
   = firstn 10 (skipn (Z.to_nat ((currentPage s - 1) * 10))
                      (filteredUsers s)))
  /\ ((1 <= currentPage s < totalPages s)%Z ->
      List.length (paginatedUsers s) = 10%nat)
  /\ ((1 <= currentPage s)%Z -> currentPage s = totalPages s ->
      (1 <= List.length (paginatedUsers s) <= 10)%nat
      /\ Z.of_nat (List.length (paginatedUsers s))
         = (Z.of_nat (List.length (filteredUsers s))
            - 10 * (currentPage s - 1))%Z)
  /\ (List.length (filteredUsers s) = 25%nat ->
      totalPages s = 3%Z
      /\ (currentPage s = 1%Z -> List.length (paginatedUsers s) = 10%nat)
      /\ (currentPage s = 3%Z ->
          List.length (paginatedUsers s) = 5%nat /\ nextPage s = s))
  /\ (currentPage s = totalPages s -> nextPage s = s)
  /\ (currentPage s = 1%Z -> prevPage s = s)
  /\ (filteredUsers s <> [] -> currentPage s = 1%Z ->
      (1 <= currentPage s <= totalPages s)%Z)
  /\ ((1 <= currentPage s <= totalPages s)%Z ->
      forall acts : list PageAction,
        (1 <= currentPage (fold_left press acts s)
         <= totalPages (fold_left press acts s))%Z).
Proof.
  pose proof (totalPages_bounds s) as Hb.
  repeat match goal with |- _ /\ _ => split end.
  - apply paginatedUsers_window.
  - intros H. pose proof (paginatedUsers_length s ltac:(lia)). lia.
  - intros H1 H2. pose proof (paginatedUsers_length s H1). lia.
  - intros H25. rewrite H25 in Hb.
    assert (Ht : totalPages s = 3%Z) by lia.
    split; [exact Ht|]. split.
    + intros Hp. pose proof (paginatedUsers_length s ltac:(lia)). lia.
    + intros Hp. pose proof (paginatedUsers_length s ltac:(lia)).
      split; [lia|]. unfold nextPage. rewrite Hp, Ht. reflexivity.
  - intros H. unfold nextPage. rewrite H, Z.ltb_irrefl. reflexivity.
  - intros H. unfold prevPage. rewrite H. reflexivity.
  - intros Hne Hp. destruct (filteredUsers s); [congruence|].
    simpl List.length in Hb. lia.
  - intros H acts. apply presses_in_range. assumption.
Qed.

Lemma pagination_pages_witness :
  List.length (filteredUsers (showing 25 1)) = 25%nat
  /\ List.length (paginatedUsers (showing 25 1)) = 10%nat
  /\ List.length (paginatedUsers (showing 25 3)) = 5%nat
  /\ nextPage (showing 25 3) = showing 25 3
  /\ prevPage (showing 25 1) = showing 25 1
  /\ (1 <= currentPage (fold_left press [PressNext; PressNext; PressNext;
                                          PressPrev] (showing 25 1))
      <= totalPages (showing 25 1))%Z.
Proof.
  destruct (pagination_pages (showing 25 1))
    as (_ & _ & _ & H25 & _ & Hprev & Hreset & Hinv).
  destruct (pagination_pages (showing 25 3)) as (_ & _ & _ & H25' & _).
  destruct (H25 eq_refl) as (_ & Hp1 & _).
  destruct (H25' eq_refl) as (_ & _ & Hp3).
  split; [reflexivity|]. split; [exact (Hp1 eq_refl)|].
  split; [exact (proj1 (Hp3 eq_refl))|].
  split; [exact (proj2 (Hp3 eq_refl))|].
  split; [exact (Hprev eq_refl)|].
  exact (Hinv (Hreset ltac:(discriminate) eq_refl)
              [PressNext; PressNext; PressNext; PressPrev]).
Defined.

(** *** Symmetry of the distance, with and without rounding *)

Lemma haversineDistance_r_exact (c1 c2 : Coords) :
  haversineDistance_r (fun x => x) sin cos sqrt atan2R PI c1 c2
  = haversineDistance c1 c2.
Proof. reflexivity. Qed.

Section RoundedSymmetry.
Variable rnd : R -> R.
Variables fsin fcos fsqrt : R -> R.
Variable fatan2 : R -> R -> R.
Variable pi : R.
Hypothesis rnd_opp : forall x : R, rnd (- x)%R = (- rnd x)%R.
Hypothesis fsin_opp : forall x : R, fsin (- x)%R = (- fsin x)%R.



End RoundedSymmetry.


Lemma haversineDistance_r_of_term
      (rnd fsin fcos fsqrt : R -> R) (fatan2 : R -> R -> R) (pi : R)
      (c1 c2 : Coords) :
  haversineDistance_r rnd fsin fcos fsqrt fatan2 pi c1 c2
  = mul_r rnd R_km
      (mul_r rnd (Num 2)
         (lift2 fatan2
            (sqrt_r fsqrt (haversineTerm_r rnd fsin fcos pi c1 c2))
            (sqrt_r fsqrt
               (sub_r rnd (Num 1)
                      (haversineTerm_r rnd fsin fcos pi c1 c2))))).
Proof. reflexivity. Qed.







(** *** The radius stage at 5 km around the origin *)

(** What holds of the fixture of the specification: among the candidates
    that have a coordinate with a latitude other than [0], those at 4.9 km
    are kept and those at 5.1 km are removed; a candidate without location
    is removed. *)
Lemma radius_five_km_with_latitude (u : UserWithSkills) (lat lon d : R) :
  hasCoordinate u lat lon ->
  lat <> 0%R ->
  haversineDistance origin (mkCoords (Some (Num lat)) (Some (Num lon)))
  = Num d ->
  (d = (49 / 10)%R -> withinRadius origin (Num 5) u = Ok true)
  /\ (d = (51 / 10)%R -> withinRadius origin (Num 5) u = Ok false).
Proof.
  intros Hu Hlat Hd.
  rewrite (withinRadius_of_distance origin u lat lon d 5 Hu Hlat Hd).
  split; intros ->.
  - rewrite le_Num_true by lra. reflexivity.
  - rewrite le_Num_false by lra. reflexivity.
Qed.

Lemma keptByRadius_north (name : string) (km r : R) :
  (0 < km <= 6371)%R ->
  keptByRadius origin (Num r) (candidateAt name (VObject (northOfOrigin km)))
  = le (Num km) (Num r).
Proof.
  intros H. unfold keptByRadius.
  cbn [location candidateAt northOfOrigin latitude truthyField].
  rewrite truthyNum_nonzero by (apply degreesOf_nonzero; lra).
  fold (northOfOrigin km). rewrite distance_northOfOrigin by lra.
  reflexivity.
Qed.

Example radius_five_km_run :
  filterPipeline (radiusOn [north49; north51; nowhere; east49] (Some origin))
  = Ok [north49].
Proof.
  assert (H49 : keptByRadius origin (Num 5) north49 = true).
  { unfold north49. rewrite keptByRadius_north by lra.
    apply le_Num_true. lra. }
  assert (H51 : keptByRadius origin (Num 5) north51 = false).
  { unfold north51. rewrite keptByRadius_north by lra.
    apply le_Num_false. lra. }
  assert (HE : keptByRadius origin (Num 5) east49 = false).
  { apply (zero_latitude_not_kept origin (Num 5) east49
             (Some (Num (degreesOf (49 / 10))))). reflexivity. }
  rewrite filterPipeline_eq.
  change (Ok (filter (keptByRadius origin (Num 5))
                     [north49; north51; nowhere; east49]) = Ok [north49]).
  cbn [filter]. rewrite H49, H51, HE. reflexivity.
Qed.

(* ===================================================================== *)
(** ** Further properties of the distance function *)
(* ===================================================================== *)

Lemma arc_of_half_angle_closed (x : R) :
  (0 <= x <= PI / 2)%R ->
  atan2R (sqrt (sin x * sin x)) (sqrt (1 - sin x * sin x)) = x.
Proof.
  intros [H0 H1]. destruct (Rle_lt_or_eq_dec _ _ H1) as [Hlt|Heq].
  - apply arc_of_half_angle. lra.
  - subst x. rewrite sin_PI2.
    replace (1 - 1 * 1)%R with 0%R by ring. rewrite Rmult_1_r, sqrt_1, sqrt_0.
    unfold atan2R. destruct (Rlt_dec 0 0); [lra|].
    destruct (Rlt_dec 0 0); [lra|]. destruct (Rlt_dec 0 1); [reflexivity|lra].
Qed.

Lemma arc_of_half_angle_abs (x : R) :
  (Rabs x <= PI / 2)%R ->
  atan2R (sqrt (sin x * sin x)) (sqrt (1 - sin x * sin x)) = Rabs x.
Proof.
  intros H. unfold Rabs in *. destruct (Rcase_abs x) as [Hneg|Hpos].
  - replace (sin x * sin x)%R with (sin (- x) * sin (- x))%R
      by (rewrite sin_neg; ring).
    apply arc_of_half_angle_closed. lra.
  - apply arc_of_half_angle_closed. lra.
Qed.

Lemma half_degrees_range (deg : R) :
  (Rabs deg <= 180)%R -> (Rabs (deg * PI / 180 / 2) <= PI / 2)%R.
Proof.
  intros H. pose proof PI_RGT_0 as Hpi.
  replace (deg * PI / 180 / 2)%R with (deg * (PI / 360))%R by lra.
  rewrite Rabs_mult, (Rabs_pos_eq (PI / 360)) by lra.
  apply Rle_trans with (180 * (PI / 360))%R; [|lra].
  apply Rmult_le_compat_r; lra.
Qed.

Lemma half_degrees_abs (deg : R) :
  (6371 * (2 * Rabs (deg * PI / 180 / 2)) = 6371 * PI / 180 * Rabs deg)%R.
Proof.
  pose proof PI_RGT_0 as Hpi.
  replace (deg * PI / 180 / 2)%R with (deg * (PI / 360))%R by lra.
  rewrite Rabs_mult, (Rabs_pos_eq (PI / 360)) by lra. lra.
Qed.

Lemma distance_along_meridian (lat1 lat2 lon : R) :
  (Rabs (lat2 - lat1) <= 180)%R ->
  haversineDistance (mkCoords (Some (Num lat1)) (Some (Num lon)))
                    (mkCoords (Some (Num lat2)) (Some (Num lon)))
  = Num (6371 * PI / 180 * Rabs (lat2 - lat1)).
Proof.
  intros H. rewrite haversineDistance_Num. cbv zeta.
  replace ((lon - lon) * PI / 180 / 2)%R with 0%R by lra.
  rewrite sin_0.
  match goal with
  | |- context [(?s * ?s + ?c * (0 * 0))%R] =>
      replace (s * s + c * (0 * 0))%R with (s * s)%R by ring
  end.
  rewrite arc_of_half_angle_abs by (apply half_degrees_range; assumption).
  f_equal. apply half_degrees_abs.
Qed.

Lemma haversineDistance_NaN_latitude (c1 c2 : Coords) :
  isNumber (latitude c2) = false -> haversineDistance c1 c2 = NaN.
Proof.
  intros H. unfold haversineDistance.
  assert (E : toNumber (latitude c2) = NaN).
  { destruct (latitude c2) as [[|x]|]; simpl in *; congruence. }
  rewrite E. reflexivity.
Qed.

Lemma atan2R_zero_one : atan2R 0 1 = 0%R.
Proof.
  unfold atan2R. destruct (Rlt_dec 0 1); [|lra].
  replace (0 / 1)%R with 0%R by lra. apply atan_0.
Qed.

Lemma haversineTerm_r_self (rnd fsin fcos : R -> R) (pi la lo : R) :
  rnd 0%R = 0%R ->
  fsin 0%R = 0%R ->
  haversineTerm_r rnd fsin fcos pi
                  (mkCoords (Some (Num la)) (Some (Num lo)))
                  (mkCoords (Some (Num la)) (Some (Num lo)))
  = Num 0.
Proof.
  intros R0 S0. unfold haversineTerm_r. cbn [latitude longitude toNumber].
  assert (Z : forall x : R,
             sqr_r rnd (lift1 fsin
                          (div_r rnd (toRad_r rnd pi
                                        (sub_r rnd (Num x) (Num x)))
                                 (Num 2)))
             = Num 0).
  { intros x. unfold toRad_r, sub_r, mul_r. cbn [lift2]. unfold div_r.
    destruct (Req_dec_T 180 0); [lra|]. destruct (Req_dec_T 2 0); [lra|].
    cbn [lift1]. unfold sqr_r, mul_r. cbn [lift2].
    replace (x - x)%R with 0%R by ring. rewrite R0, Rmult_0_l, R0.
    replace (0 / 180)%R with 0%R by lra. rewrite R0.
    replace (0 / 2)%R with 0%R by lra. rewrite R0, S0, Rmult_0_l, R0.
    reflexivity. }
  rewrite !Z.
  assert (C : exists c : R,
             mul_r rnd (lift1 fcos (toRad_r rnd pi (Num la)))
                   (lift1 fcos (toRad_r rnd pi (Num la)))
             = Num c).
  { unfold toRad_r, mul_r. cbn [lift2]. unfold div_r.
    destruct (Req_dec_T 180 0); [lra|]. cbn [lift1 lift2].
    eexists. reflexivity. }
  destruct C as [c ->]. unfold add_r, mul_r. cbn [lift2].
  rewrite Rmult_0_r, R0, Rplus_0_l, R0. reflexivity.
Qed.

(** X2.  The distance from a coordinate to itself is exactly [0], with
    every operation rounded: it is enough that [0] and [1] are
    representable and that the sine, the square root and the arc tangent
    of the engine are exact at [0] and [1].  The coordinate is taken in
    the range of valid degrees, where no intermediate product leaves the
    range of the numbers. *)
Theorem haversineDistance_r_self
        (rnd fsin fcos fsqrt : R -> R) (fatan2 : R -> R -> R) (pi : R)
        (la lo : R) :
  rnd 0%R = 0%R ->
  rnd 1%R = 1%R ->
  fsin 0%R = 0%R ->
  fsqrt 0%R = 0%R ->
  fsqrt 1%R = 1%R ->
  fatan2 0%R 1%R = 0%R ->
  (- 90 <= la <= 90)%R ->
  (- 180 <= lo <= 180)%R ->
  haversineDistance_r rnd fsin fcos fsqrt fatan2 pi
                      (mkCoords (Some (Num la)) (Some (Num lo)))
                      (mkCoords (Some (Num la)) (Some (Num lo)))
  = Num 0.
Proof.
  intros R0 R1 S0 Q0 Q1 A0 _ _.
  rewrite haversineDistance_r_of_term,
    (haversineTerm_r_self rnd fsin fcos pi la lo R0 S0).
  unfold sub_r, sqrt_r. cbn [lift2]. rewrite Rminus_0_r, R1.
  destruct (Rlt_dec 0 0); [lra|]. destruct (Rlt_dec 1 0); [lra|].
  rewrite Q0, Q1. cbn [lift2]. rewrite A0. unfold mul_r, R_km. cbn [lift2].
  rewrite Rmult_0_r, R0, Rmult_0_r, R0. reflexivity.
Qed.

Lemma haversineDistance_r_self_witness :
  (- 90 <= 10 <= 90)%R
  /\ (- 180 <= 20 <= 180)%R
  /\ haversineDistance (mkCoords (Some (Num 10)) (Some (Num 20)))
                       (mkCoords (Some (Num 10)) (Some (Num 20)))
     = Num 0.
Proof.
  assert (H1 : (- 90 <= 10 <= 90)%R) by lra.
  assert (H2 : (- 180 <= 20 <= 180)%R) by lra.
  split; [exact H1|]. split; [exact H2|].
  exact (haversineDistance_r_self (fun x => x) sin cos sqrt atan2R PI 10 20
           eq_refl eq_refl sin_0 sqrt_0 sqrt_1 atan2R_zero_one H1 H2).
Defined.

Lemma haversineTerm_r_NaN (rnd fsin fcos : R -> R) (pi : R)
      (c1 c2 : Coords) :
  toNumber (latitude c1) = NaN \/ toNumber (longitude c1) = NaN
  \/ toNumber (latitude c2) = NaN \/ toNumber (longitude c2) = NaN ->
  haversineTerm_r rnd fsin fcos pi c1 c2 = NaN.
Proof.
  intros H. unfold haversineTerm_r.
  destruct H as [E|[E|[E|E]]]; rewrite E;
    repeat match goal with
           | |- context [toNumber ?f] => destruct (toNumber f)
           end;
    unfold toRad_r, div_r, sub_r, mul_r, add_r, sqr_r;
    cbn [lift1 lift2];
    repeat match goal with
           | |- context [Req_dec_T ?x 0] => destruct (Req_dec_T x 0)
           end;
    reflexivity.
Qed.

Lemma haversineDistance_r_NaN_of_toNumber
      (rnd fsin fcos fsqrt : R -> R) (fatan2 : R -> R -> R) (pi : R)
      (c1 c2 : Coords) :
  toNumber (latitude c1) = NaN \/ toNumber (longitude c1) = NaN
  \/ toNumber (latitude c2) = NaN \/ toNumber (longitude c2) = NaN ->
  haversineDistance_r rnd fsin fcos fsqrt fatan2 pi c1 c2 = NaN.
Proof.
  intros H.
  rewrite haversineDistance_r_of_term, (haversineTerm_r_NaN _ _ _ _ _ _ H).
  reflexivity.
Qed.

(** X4.  A latitude or a longitude that converts to [NaN], such as a
    missing property, makes the result [NaN]: the function raises no
    exception and returns no number, whatever the rounding of its
    operations is. *)
Theorem haversineDistance_NaN_in_NaN_out
        (rnd fsin fcos fsqrt : R -> R) (fatan2 : R -> R -> R) (pi : R)
        (c1 c2 : Coords) :
  toNumber (latitude c1) = NaN \/ toNumber (longitude c1) = NaN
  \/ toNumber (latitude c2) = NaN \/ toNumber (longitude c2) = NaN ->
  haversineDistance_r rnd fsin fcos fsqrt fatan2 pi c1 c2 = NaN
  /\ haversineDistance c1 c2 = NaN.
Proof.
  intros H. split.
  - apply haversineDistance_r_NaN_of_toNumber. assumption.
  - rewrite <- haversineDistance_r_exact.
    apply haversineDistance_r_NaN_of_toNumber. assumption.
Qed.

Lemma haversineDistance_NaN_in_NaN_out_witness :
  toNumber (longitude (mkCoords (Some (Num 10)) None)) = NaN
  /\ haversineDistance origin (mkCoords (Some (Num 10)) None) = NaN.
Proof.
  split; [reflexivity|].
  exact (proj2 (haversineDistance_NaN_in_NaN_out
                  (fun x => x) sin cos sqrt atan2R PI
                  origin (mkCoords (Some (Num 10)) None)
                  (or_intror (or_intror (or_intror eq_refl))))).
Defined.

(** *** The radius callback on property values of any type *)

Lemma withinRadiusAny_object (cur : Coords) (radius : JSNum)
      (lat lon : AnyProp) :
  withinRadiusAny cur radius (LObject lat lon)
  = Ok (isTruthy lat
        && le (haversineDistance
                 cur (mkCoords (Some (asNumber lat)) (Some (asNumber lon))))
              radius).
Proof.
  unfold withinRadiusAny.
  cbn [truthyLocation typeofLocation latitudeOf longitudeOf bind negb].
  change ("object" =? "object") with true. cbn [negb].
  destruct (isTruthy lat); cbn [negb andb]; [|reflexivity].
  destruct cur; reflexivity.
Qed.

Lemma withinRadiusAny_widen (cur : Coords) (radius : JSNum)
      (u : UserWithSkills) :
  withinRadiusAny cur radius (widen (location u)) = withinRadius cur radius u.
Proof.
  rewrite withinRadius_pure. unfold keptByRadius.
  destruct (location u) as [| |s|c]; try reflexivity.
  - unfold withinRadiusAny. cbn [widen truthyLocation].
    destruct (truthyStr s); reflexivity.
  - cbn [widen]. rewrite withinRadiusAny_object.
    destruct c as [[la|] [lo|]]; reflexivity.
Qed.

(** C7.  On a stored location whose properties hold values of any type,
    the radius callback never throws, and it answers [false] for a legacy
    string, for an object whose latitude is falsy and for an object in
    which the latitude or the longitude converts to [NaN], as it does for
    a candidate without location.  Not every malformed or partially
    present coordinate is treated so: [null] converts to [0] and a string
    to the number that it spells, and with the current user at the origin
    and a radius of 5 km the candidates stored as
    [{ latitude: 0.01, longitude: null }] and as
    [{ latitude: "0.01", longitude: "0" }] are kept. *)
Theorem null_longitude_candidate_kept :
  withinRadiusAny origin (Num 5)
                  (LObject (prop_number (Num (1 / 100))) prop_null)
  = Ok true
  /\ withinRadiusAny origin (Num 5)
                     (LObject (prop_numeric_string "0.01" (1 / 100))
                              (prop_numeric_string "0" 0))
     = Ok true
  /\ withinRadiusAny origin (Num 5) LNull = Ok false
  /\ (forall (cur : Coords) (radius : JSNum) (lat : AnyProp) (s : string),
         withinRadiusAny cur radius (LObject lat (prop_other_string s))
         = Ok false)
  /\ (forall (cur : Coords) (radius : JSNum) (loc : LocationValue),
         exists b : bool, withinRadiusAny cur radius loc = Ok b)
  /\ (forall (cur : Coords) (radius : JSNum) (s : string),
         withinRadiusAny cur radius (LString s) = Ok false)
  /\ (forall (cur : Coords) (radius : JSNum) (lat lon : AnyProp),
         isTruthy lat = false \/ asNumber lat = NaN \/ asNumber lon = NaN ->
         withinRadiusAny cur radius (LObject lat lon) = Ok false)
  /\ (forall (cur : Coords) (radius : JSNum) (u : UserWithSkills),
         withinRadiusAny cur radius (widen (location u))
         = withinRadius cur radius u).
Proof.
  assert (Hnear : le (haversineDistance
                        origin (mkCoords (Some (Num (1 / 100)))
                                         (Some (Num 0))))
                     (Num 5) = true).
  { unfold origin.
    rewrite distance_along_meridian
      by (replace (1 / 100 - 0)%R with (1 / 100)%R by lra;
          rewrite Rabs_pos_eq; lra).
    replace (1 / 100 - 0)%R with (1 / 100)%R by lra.
    rewrite Rabs_pos_eq by lra. apply le_Num_true.
    pose proof PI_4 as H4. pose proof PI_RGT_0 as H0. lra. }
  split; [|split; [|split; [|split; [|split; [|split; [|split]]]]]].
  - rewrite withinRadiusAny_object.
    cbn [prop_number prop_null isTruthy asNumber].
    rewrite truthyNum_nonzero by lra. rewrite Hnear. reflexivity.
  - rewrite withinRadiusAny_object.
    cbn [prop_numeric_string isTruthy asNumber]. rewrite Hnear.
    reflexivity.
  - reflexivity.
  - intros cur radius lat s. rewrite withinRadiusAny_object.
    rewrite <- haversineDistance_r_exact.
    rewrite haversineDistance_r_NaN_of_toNumber
      by (cbn [latitude longitude toNumber prop_other_string asNumber];
          tauto).
    cbn [le]. apply f_equal, andb_false_r.
  - intros cur radius [| |s|lat lon].
    + exists false. reflexivity.
    + exists false. reflexivity.
    + exists false. unfold withinRadiusAny. cbn [truthyLocation].
      destruct (truthyStr s); reflexivity.
    + eexists. apply withinRadiusAny_object.
  - intros cur radius s. unfold withinRadiusAny. cbn [truthyLocation].
    destruct (truthyStr s); reflexivity.
  - intros cur radius lat lon H. rewrite withinRadiusAny_object.
    destruct H as [H|H].
    + rewrite H. reflexivity.
    + rewrite <- haversineDistance_r_exact.
      rewrite haversineDistance_r_NaN_of_toNumber
        by (cbn [latitude longitude toNumber]; tauto).
      cbn [le]. rewrite andb_false_r. reflexivity.
  - apply withinRadiusAny_widen.
Qed.

(* ===================================================================== *)
(** ** Further properties of the filter pipeline *)
(* ===================================================================== *)

Lemma skillRoleFilter_as_filter (sk : string) (r : RoleFilterType) :
  exists p : UserWithSkills -> bool,
    forall l, skillRoleFilter sk r l = filter p l.
Proof.
  unfold skillRoleFilter. destruct (negb (sk =? "All")).
  - eexists. intros l. reflexivity.
  - destruct r.
    + exists (fun _ => true). intros l. induction l; simpl; congruence.
    + eexists. intros l. reflexivity.
    + eexists. intros l. reflexivity.
Qed.

Lemma searchTextFilter_as_filter (txt : string) :
  exists p : UserWithSkills -> bool,
    forall l, searchTextFilter txt l = filter p l.
Proof.
  unfold searchTextFilter. destruct (truthyStr (trim txt)).
  - eexists. intros l. reflexivity.
  - exists (fun _ => true). intros l. induction l; simpl; congruence.
Qed.

Lemma filter_filter {A : Type} (f g : A -> bool) (l : list A) :
  filter f (filter g l) = filter (fun x => g x && f x) l.
Proof.
  induction l as [|x l IH]; simpl; [reflexivity|].
  destruct (g x); simpl; [destruct (f x)|]; rewrite ?IH; reflexivity.
Qed.

(** The pipeline is one filter, by a test that looks at the state but not
    at the list. *)
Lemma filterPipeline_as_filter (s : ScreenState) :
  exists p : UserWithSkills -> bool,
    forall l, filterPipeline (setUsers l s) = Ok (filter p l).
Proof.
  destruct (skillRoleFilter_as_filter (selectedSkill s) (roleFilter s))
    as [p1 H1].
  destruct (searchTextFilter_as_filter (searchText s)) as [p2 H2].
  destruct (useRadiusFilter s) eqn:Eon;
    [destruct (currentUserLocation s) as [cur|] eqn:Ecur|].
  - exists (fun u => p1 u && (p2 u && keptByRadius cur (radius s) u)).
    intros l. rewrite filterPipeline_eq. cbn [setUsers users searchText
      selectedSkill roleFilter useRadiusFilter currentUserLocation radius].
    rewrite Eon, Ecur. cbv zeta. rewrite H1, H2, !filter_filter. reflexivity.
  - exists (fun u => p1 u && p2 u).
    intros l. rewrite filterPipeline_eq. cbn [setUsers users searchText
      selectedSkill roleFilter useRadiusFilter currentUserLocation radius].
    rewrite Eon, Ecur. cbv zeta. rewrite H1, H2, !filter_filter. reflexivity.
  - exists (fun u => p1 u && p2 u).
    intros l. rewrite filterPipeline_eq. cbn [setUsers users searchText
      selectedSkill roleFilter useRadiusFilter currentUserLocation radius].
    rewrite Eon. cbv zeta. rewrite H1, H2, !filter_filter. reflexivity.
Qed.

Lemma setUsers_users (s : ScreenState) : setUsers (users s) s = s.
Proof. destruct s. reflexivity. Qed.

(** X5.  Every candidate is judged on its own: the result for a candidate
    list cut in two is the result for the first part followed by the
    result for the second part, the filter state being the same. *)
Theorem filterPipeline_app (s : ScreenState) (l1 l2 : list UserWithSkills) :
  exists out1 out2 : list UserWithSkills,
    filterPipeline (setUsers l1 s) = Ok out1
    /\ filterPipeline (setUsers l2 s) = Ok out2
    /\ filterPipeline (setUsers (l1 ++ l2) s) = Ok (out1 ++ out2).
Proof.
  destruct (filterPipeline_as_filter s) as [p Hp].
  exists (filter p l1), (filter p l2). rewrite !Hp, filter_app. auto.
Qed.

(** X6.  Filtering is idempotent: run on its own output, with the same
    filter state, the pipeline returns that output unchanged. *)
Theorem filterPipeline_idempotent (s : ScreenState)
        (out : list UserWithSkills) :
  filterPipeline s = Ok out ->
  filterPipeline (setUsers out s) = Ok out.
Proof.
  destruct (filterPipeline_as_filter s) as [p Hp].
  rewrite <- (setUsers_users s) at 1. rewrite !Hp.
  intros H. injection H as <-. rewrite filter_filter. f_equal.
  apply filter_ext. intros u. apply andb_diag.
Qed.

Lemma filterPipeline_idempotent_witness :
  filterPipeline guitarTeachers = Ok [xavier]
  /\ filterPipeline (setUsers [xavier] guitarTeachers) = Ok [xavier].
Proof.
  split; [reflexivity|].
  exact (filterPipeline_idempotent guitarTeachers [xavier] eq_refl).
Defined.

Lemma Subsequence_filter_weaken {A : Type} (f g : A -> bool) (l : list A) :
  (forall x, f x = true -> g x = true) ->
  Subsequence (filter f l) (filter g l).
Proof.
  intros Hfg. induction l as [|x l IH]; simpl.
  - constructor.
  - destruct (f x) eqn:Ef.
    + rewrite (Hfg x Ef). constructor. assumption.
    + destruct (g x); [constructor|]; assumption.
Qed.

Lemma le_Num_trans (a : JSNum) (r1 r2 : R) :
  (r1 <= r2)%R -> le a (Num r1) = true -> le a (Num r2) = true.
Proof.
  intros H. destruct a as [|x]; simpl; [discriminate|].
  destruct (Rle_dec x r1); [|discriminate]. intros _.
  destruct (Rle_dec x r2); [reflexivity | lra].
Qed.

(** X7.  Widening the radius never loses a candidate: with the rest of
    the state unchanged, the result for a radius [r1] is a subsequence of
    the result for any radius [r2 >= r1]. *)
Theorem filterPipeline_radius_monotone (s : ScreenState) (r1 r2 : R) :
  (r1 <= r2)%R ->
  exists out1 out2 : list UserWithSkills,
    filterPipeline (setRadius (Num r1) s) = Ok out1
    /\ filterPipeline (setRadius (Num r2) s) = Ok out2
    /\ Subsequence out1 out2.
Proof.
  intros H. rewrite !filterPipeline_eq.
  cbn [setRadius users searchText selectedSkill roleFilter useRadiusFilter
       currentUserLocation radius]. cbv zeta.
  eexists. eexists. split; [reflexivity|]. split; [reflexivity|].
  destruct (useRadiusFilter s); [|apply Subsequence_refl].
  destruct (currentUserLocation s) as [cur|]; [|apply Subsequence_refl].
  apply Subsequence_filter_weaken. intros u. unfold keptByRadius.
  destruct (location u); try discriminate.
  rewrite !andb_true_iff. intros [Hl Hd]. split; [assumption|].
  eapply le_Num_trans; eassumption.
Qed.

Lemma filterPipeline_radius_monotone_witness :
  (5 <= 10)%R
  /\ exists out1 out2 : list UserWithSkills,
      filterPipeline
        (setRadius (Num 5) (radiusOn [north49; north51] (Some origin)))
      = Ok out1
      /\ filterPipeline
           (setRadius (Num 10) (radiusOn [north49; north51] (Some origin)))
         = Ok out2
      /\ Subsequence out1 out2.
Proof.
  assert (H : (5 <= 10)%R) by lra.
  split; [exact H|].
  exact (filterPipeline_radius_monotone
           (radiusOn [north49; north51] (Some origin)) 5 10 H).
Defined.

(** X8.  After [clearFilters] nothing is filtered: the pipeline returns
    the whole candidate list, and [applyFilters] shows it from page 1. *)
Theorem clearFilters_shows_everyone (s : ScreenState) :
  filterPipeline (clearFilters s) = Ok (users s)
  /\ exists s', applyFilters (clearFilters s) = Ok s'
                /\ filteredUsers s' = users s
                /\ currentPage s' = 1%Z
                /\ paginatedUsers s' = firstn 10 (users s).
Proof.
  assert (H : filterPipeline (clearFilters s) = Ok (users s)).
  { rewrite filterPipeline_eq. reflexivity. }
  split; [exact H|]. unfold applyFilters. rewrite H. cbn [bind].
  eexists. split; [reflexivity|]. split; [reflexivity|].
  split; [reflexivity|].
  rewrite paginatedUsers_window by (simpl; lia). reflexivity.
Qed.

(** *** The search stage *)

Lemma isWhiteSpace_lowerChar (c : ascii) :
  isWhiteSpace (lowerChar c) = isWhiteSpace c.
Proof. destruct c as [[] [] [] [] [] [] [] []]; reflexivity. Qed.

Lemma trimStart_truthy (s : string) :
  truthyStr (trimStart s)
  = existsb (fun c => negb (isWhiteSpace c)) (list_ascii_of_string s).
Proof.
  induction s as [|c s IH]; simpl; [reflexivity|].
  destruct (isWhiteSpace c); simpl; [assumption | reflexivity].
Qed.

Lemma trimEnd_truthy (s : string) :
  truthyStr (trimEnd s)
  = existsb (fun c => negb (isWhiteSpace c)) (list_ascii_of_string s).
Proof.
  induction s as [|c s IH]; simpl; [reflexivity|].
  destruct (trimEnd s) eqn:E; simpl in *.
  - rewrite <- IH, orb_false_r. destruct (isWhiteSpace c); reflexivity.
  - rewrite <- IH, orb_true_r. reflexivity.
Qed.

Lemma trimStart_existsb (s : string) :
  existsb (fun c => negb (isWhiteSpace c))
          (list_ascii_of_string (trimStart s))
  = existsb (fun c => negb (isWhiteSpace c)) (list_ascii_of_string s).
Proof.
  induction s as [|c s IH]; simpl; [reflexivity|].
  destruct (isWhiteSpace c) eqn:E; simpl; [assumption|].
  rewrite E. reflexivity.
Qed.

Lemma trim_truthy (s : string) :
  truthyStr (trim s)
  = existsb (fun c => negb (isWhiteSpace c)) (list_ascii_of_string s).
Proof. unfold trim. rewrite trimEnd_truthy. apply trimStart_existsb. Qed.

Lemma trim_truthy_toLowerCase (s : string) :
  truthyStr (trim (toLowerCase s)) = truthyStr (trim s).
Proof.
  rewrite !trim_truthy. induction s as [|c s IH]; simpl; [reflexivity|].
  rewrite isWhiteSpace_lowerChar, IH. reflexivity.
Qed.

Lemma toLowerCase_idempotent (s : string) :
  toLowerCase (toLowerCase s) = toLowerCase s.
Proof.
  induction s as [|c s IH]; simpl; [reflexivity|]. rewrite IH. f_equal.
  destruct c as [[] [] [] [] [] [] [] []]; reflexivity.
Qed.

(** X9.  The search ignores the case of the query: two search texts with
    the same lower-case form select the same candidates; in particular a
    query and its lower-case form do. *)
Theorem searchTextFilter_case_insensitive
        (txt1 txt2 : string) (l : list UserWithSkills) :
  (toLowerCase txt1 = toLowerCase txt2 ->
   searchTextFilter txt1 l = searchTextFilter txt2 l)
  /\ searchTextFilter (toLowerCase txt1) l = searchTextFilter txt1 l.
Proof.
  assert (H : forall a b, toLowerCase a = toLowerCase b ->
                          searchTextFilter a l = searchTextFilter b l).
  { intros a b E. unfold searchTextFilter.
    rewrite <- (trim_truthy_toLowerCase a), <- (trim_truthy_toLowerCase b).
    rewrite E. reflexivity. }
  split; [apply H|]. apply H. apply toLowerCase_idempotent.
Qed.

Lemma searchTextFilter_case_insensitive_witness :
  toLowerCase "GuiTAR" = toLowerCase "guitar"
  /\ searchTextFilter "GuiTAR" [yann; xavier; zoe]
     = searchTextFilter "guitar" [yann; xavier; zoe].
Proof.
  split; [reflexivity|].
  exact (proj1 (searchTextFilter_case_insensitive
                  "GuiTAR" "guitar" [yann; xavier; zoe]) eq_refl).
Defined.

(** X10.  A search text made of white space only filters nothing: the
    search stage returns its input. *)
Theorem searchTextFilter_blank (txt : string) (l : list UserWithSkills) :
  forallb isWhiteSpace (chars txt) = true ->
  searchTextFilter txt l = l.
Proof.
  intros H. unfold searchTextFilter. rewrite trim_truthy.
  replace (existsb (fun c => negb (isWhiteSpace c)) (list_ascii_of_string txt))
    with false; [reflexivity|].
  symmetry. unfold chars in H.
  induction (list_ascii_of_string txt) as [|c cs IH]; simpl in *;
    [reflexivity|].
  apply andb_true_iff in H. destruct H as [Hc Hcs].
  rewrite Hc, IH by assumption. reflexivity.
Qed.

Lemma searchTextFilter_blank_witness :
  forallb isWhiteSpace (chars "   ") = true
  /\ searchTextFilter "   " [yann; xavier; zoe] = [yann; xavier; zoe].
Proof.
  split; [reflexivity|].
  exact (searchTextFilter_blank "   " [yann; xavier; zoe] eq_refl).
Defined.

Lemma chars_toLowerCase (s : string) :
  chars (toLowerCase s) = map lowerChar (chars s).
Proof.
  unfold chars. induction s as [|c s IH]; simpl; [reflexivity|].
  rewrite IH. reflexivity.
Qed.

Lemma prefix_chars (sub s : string) :
  String.prefix sub s = true -> incl (chars sub) (chars s).
Proof.
  unfold chars. revert s. induction sub as [|c sub IH]; intros s H.
  - intros x [].
  - destruct s as [|c' s]; simpl in H; [discriminate|].
    destruct (ascii_dec c c') as [->|]; [|discriminate].
    simpl. intros x [<-|Hx]; [left; reflexivity|].
    right. apply (IH s H). assumption.
Qed.

Lemma str_includes_chars (s sub : string) :
  str_includes s sub = true -> incl (chars sub) (chars s).
Proof.
  induction s as [|c s IH]; simpl; intros H.
  - rewrite orb_false_r in H. apply (prefix_chars sub ""). assumption.
  - apply orb_true_iff in H. destruct H as [H|H].
    + apply (prefix_chars sub (String c s)). assumption.
    + intros x Hx. right. apply (IH H). assumption.
Qed.

Lemma blankFree_no_blank_match (field txt : string) :
  existsb isWhiteSpace (chars txt) = true ->
  blankFree field = true ->
  str_includes (toLowerCase field) (toLowerCase txt) = false.
Proof.
  intros Hw Hf. destruct (str_includes _ _) eqn:E; [|reflexivity].
  apply str_includes_chars in E. rewrite !chars_toLowerCase in E.
  apply existsb_exists in Hw. destruct Hw as (c & Hc & Hcw).
  assert (Hin : In (lowerChar c) (map lowerChar (chars field))).
  { apply E. apply in_map. assumption. }
  apply in_map_iff in Hin. destruct Hin as (c0 & Hc0 & Hin0).
  unfold blankFree in Hf. rewrite forallb_forall in Hf.
  specialize (Hf c0 Hin0).
  rewrite <- isWhiteSpace_lowerChar, Hc0, isWhiteSpace_lowerChar, Hcw in Hf.
  discriminate.
Qed.

Lemma blankFree_no_skill_match (skills : list string) (txt : string) :
  existsb isWhiteSpace (chars txt) = true ->
  forallb blankFree skills = true ->
  some skills (fun s => str_includes (toLowerCase s) (toLowerCase txt))
  = false.
Proof.
  intros Hw. unfold some. induction skills as [|sk skills IH]; simpl;
    [reflexivity|].
  intros H. apply andb_true_iff in H. destruct H as [H1 H2].
  rewrite (blankFree_no_blank_match sk txt Hw H1). apply IH. assumption.
Qed.

(** X11.  The search text is tested for emptiness after trimming but is
    matched as typed: a query that holds a white-space character next to
    other characters (a trailing space, say) selects no candidate whose
    name, email, bio and skills are free of white space. *)
Theorem searchTextFilter_padded_query
        (txt : string) (l : list UserWithSkills) (u : UserWithSkills) :
  existsb isWhiteSpace (chars txt) = true ->
  existsb (fun c => negb (isWhiteSpace c)) (chars txt) = true ->
  fieldsBlankFree u = true ->
  ~ In u (searchTextFilter txt l).
Proof.
  intros Hw Hn Hu. unfold searchTextFilter. rewrite trim_truthy.
  unfold chars in Hn. rewrite Hn. cbv zeta. rewrite filter_In.
  intros [_ H]. unfold fieldsBlankFree in Hu.
  repeat (apply andb_true_iff in Hu; destruct Hu as [Hu ?]).
  rewrite (blankFree_no_blank_match (displayName u) txt Hw Hu) in H.
  rewrite (blankFree_no_blank_match (email u) txt Hw) in H by assumption.
  rewrite !(blankFree_no_skill_match _ txt Hw) in H by assumption.
  destruct (bio u) as [b|].
  - rewrite (blankFree_no_blank_match b txt Hw) in H by assumption.
    discriminate.
  - discriminate.
Qed.

Lemma searchTextFilter_padded_query_witness :
  existsb isWhiteSpace (chars "ann ") = true
  /\ existsb (fun c => negb (isWhiteSpace c)) (chars "ann ") = true
  /\ fieldsBlankFree ann = true
  /\ ~ In ann (searchTextFilter "ann " [ann])
  /\ In ann (searchTextFilter "ann" [ann]).
Proof.
  split; [reflexivity|]. split; [reflexivity|]. split; [reflexivity|].
  split.
  - exact (searchTextFilter_padded_query "ann " [ann] ann
             eq_refl eq_refl eq_refl).
  - left. reflexivity.
Defined.

Lemma self_not_number_not_kept (cur : Coords) (radius : JSNum)
      (u : UserWithSkills) :
  isNumber (latitude cur) && isNumber (longitude cur) = false ->
  keptByRadius cur radius u = false.
Proof.
  intros H. unfold keptByRadius. destruct (location u); try reflexivity.
  rewrite haversineDistance_sym. apply andb_false_iff in H.
  destruct H as [H|H];
    [rewrite haversineDistance_NaN_latitude by assumption
    |rewrite haversineDistance_NaN_longitude by assumption];
    apply andb_false_r.
Qed.

Lemma filter_none {A : Type} (f : A -> bool) (l : list A) :
  (forall x, f x = false) -> filter f l = [].
Proof.
  intros H. induction l as [|x l IH]; simpl; [reflexivity|].
  rewrite H. assumption.
Qed.

(** X12.  When the latitude or the longitude of the coordinate held for
    the current user is undefined or [NaN], switching the radius filter on
    empties the result: every distance is then [NaN], which no radius
    admits.  The listener produces such a coordinate, with both
    properties undefined, from a legacy string location. *)
Theorem radius_filter_with_undefined_self
        (s : ScreenState) (cur : Coords) :
  useRadiusFilter s = true ->
  currentUserLocation s = Some cur ->
  isNumber (latitude cur) && isNumber (longitude cur) = false ->
  filterPipeline s = Ok []
  /\ forall (d : DocumentData.t) (str : string) (s0 : ScreenState),
      DocumentData.location d = VString str ->
      truthyStr str = true ->
      onUserSnapshot (Some d) s0
      = Ok (setCurrentUserLocation (Some (mkCoords None None)) s0).
Proof.
  intros Hon Hcur Hbad. split.
  - rewrite filterPipeline_eq, Hon, Hcur. cbv zeta. f_equal.
    apply filter_none. intros u. apply self_not_number_not_kept. assumption.
  - intros d str s0 Hd Hstr. unfold onUserSnapshot. rewrite Hd. simpl.
    rewrite Hstr. reflexivity.
Qed.

Lemma radius_filter_with_undefined_self_witness :
  filterPipeline
    (radiusOn [north49; atOrigin] (Some (mkCoords None None))) = Ok []
  /\ onUserSnapshot
       (Some (DocumentData.mk None None None None None (VString "Boston")
                              None None None)) initialState
     = Ok (setCurrentUserLocation (Some (mkCoords None None)) initialState).
Proof.
  destruct (radius_filter_with_undefined_self
              (radiusOn [north49; atOrigin] (Some (mkCoords None None)))
              (mkCoords None None) eq_refl eq_refl eq_refl) as [H1 H2].
  split; [exact H1|].
  exact (H2 (DocumentData.mk None None None None None (VString "Boston")
                             None None None)
            "Boston" initialState eq_refl eq_refl).
Defined.

(* ===================================================================== *)
(** ** Further properties of the pagination *)
(* ===================================================================== *)

Lemma chunks_concat {A : Type} (n : nat) :
  forall l : list A,
    (List.length l <= 10 * n)%nat ->
    List.concat (map (fun k => firstn 10 (skipn (10 * k) l)) (seq 0 n)) = l.
Proof.
  induction n as [|n IH]; intros l H.
  - destruct l; [reflexivity | simpl in H; lia].
  - cbn [seq map List.concat]. rewrite <- seq_shift, map_map.
    replace (10 * 0)%nat with 0%nat by lia. cbn [skipn].
    rewrite (map_ext _ (fun k => firstn 10 (skipn (10 * k) (skipn 10 l)))).
    + rewrite IH by (rewrite length_skipn; lia). apply firstn_skipn.
    + intros k. rewrite skipn_skipn. do 2 f_equal. lia.
Qed.

Lemma pageAt_window (s : ScreenState) (k : nat) :
  pageAt s (Z.of_nat (S k))
  = firstn 10 (skipn (10 * k) (filteredUsers s)).
Proof.
  unfold pageAt. rewrite paginatedUsers_window by (simpl; lia).
  cbn [setCurrentPage currentPage filteredUsers]. do 2 f_equal. lia.
Qed.

(** X13.  The pages [1 .. totalPages] cut the result list into
    consecutive pieces: put end to end they give back the list, and none
    of them is empty or longer than 10. *)
Theorem pages_partition (s : ScreenState) :
  List.concat (allPages s) = filteredUsers s
  /\ Forall (fun page => (1 <= List.length page <= 10)%nat) (allPages s).
Proof.
  pose proof (totalPages_bounds s) as Hb. unfold allPages.
  set (n := Z.to_nat (totalPages s)).
  assert (Hn : totalPages s = Z.of_nat n).
  { unfold n. rewrite Z2Nat.id; [reflexivity|]. lia. }
  rewrite Hn in Hb. clearbody n.
  rewrite <- seq_shift, map_map. split.
  - rewrite (map_ext _ (fun k => firstn 10 (skipn (10 * k) (filteredUsers s))))
      by (intros k; apply pageAt_window).
    apply chunks_concat. lia.
  - apply Forall_forall. intros page Hin. apply in_map_iff in Hin.
    destruct Hin as (k & <- & Hk). apply in_seq in Hk.
    rewrite pageAt_window, length_firstn, length_skipn. lia.
Qed.

Example pages_partition_run :
  map (@List.length UserWithSkills) (allPages (showing 25 1))
  = [10; 10; 5]%nat.
Proof. reflexivity. Qed.

Lemma setCurrentPage_same (s : ScreenState) (p : Z) :
  currentPage s = p -> setCurrentPage p s = s.
Proof. intros <-. destruct s. reflexivity. Qed.

Lemma setCurrentPage_twice (s : ScreenState) (p q : Z) :
  setCurrentPage p (setCurrentPage q s) = setCurrentPage p s.
Proof. reflexivity. Qed.

(** X14.  The two buttons undo each other: when the next-page button is
    enabled, next then previous comes back to the same state, and when the
    previous-page button is enabled on a page of the range, previous then
    next does. *)
Theorem page_buttons_round_trip (s : ScreenState) :
  ((1 <= currentPage s < totalPages s)%Z -> prevPage (nextPage s) = s)
  /\ ((1 < currentPage s <= totalPages s)%Z -> nextPage (prevPage s) = s).
Proof.
  split; intros H.
  - unfold nextPage. destruct (Z.ltb_spec (currentPage s) (totalPages s));
      [|lia].
    unfold prevPage. cbn [currentPage setCurrentPage].
    destruct (Z.ltb_spec 1 (currentPage s + 1)); [|lia].
    rewrite setCurrentPage_twice. apply setCurrentPage_same. lia.
  - unfold prevPage. destruct (Z.ltb_spec 1 (currentPage s)); [|lia].
    unfold nextPage.
    change (totalPages (setCurrentPage (currentPage s - 1) s))
      with (totalPages s).
    cbn [currentPage setCurrentPage].
    destruct (Z.ltb_spec (currentPage s - 1) (totalPages s)); [|lia].
    rewrite setCurrentPage_twice. apply setCurrentPage_same. lia.
Qed.

Lemma page_buttons_round_trip_witness :
  (1 <= currentPage (showing 25 2) < totalPages (showing 25 2))%Z
  /\ prevPage (nextPage (showing 25 2)) = showing 25 2
  /\ nextPage (prevPage (showing 25 2)) = showing 25 2.
Proof.
  assert (H1 : (1 <= currentPage (showing 25 2)
                < totalPages (showing 25 2))%Z)
    by (vm_compute; split; [discriminate | reflexivity]).
  assert (H2 : (1 < currentPage (showing 25 2)
                <= totalPages (showing 25 2))%Z)
    by (vm_compute; split; [reflexivity | discriminate]).
  split; [exact H1|]. split.
  - exact (proj1 (page_buttons_round_trip (showing 25 2)) H1).
  - exact (proj2 (page_buttons_round_trip (showing 25 2)) H2).
Defined.

(* ===================================================================== *)
(** ** Further properties of the loader *)
(* ===================================================================== *)

Lemma In_skill_names (uid : option string)
      (docs : list QueryDocumentSnapshot) (s : ScreenState) (sk : string) :
  In sk (sort (snd (collect uid docs)))
  -> exists u : UserWithSkills,
      In u (users (loadUsers uid (Ok docs) s))
      /\ (In sk (skillsTeaching u) \/ In sk (skillsLearning u)).
Proof.
  intros Hin. apply (Permutation_in _ (sort_Permutation _)) in Hin.
  apply collect_skills_In in Hin.
  destruct Hin as [[]|(doc & Hd & He & Hs)].
  exists (toUser doc). split; [|exact Hs].
  apply In_loaded_users. exists doc. auto.
Qed.

(** X15.  Every chip of the skill selector leads somewhere: after a
    successful load, selecting any skill listed after the sentinel, with
    the other filters cleared, leaves at least one candidate. *)
Theorem skill_chip_selects_someone
        (uid : option string) (docs : list QueryDocumentSnapshot)
        (s : ScreenState) (sk : string) :
  In sk (tl (allSkills (loadUsers uid (Ok docs) s))) ->
  exists out : list UserWithSkills,
    filterPipeline
      (setSelectedSkill sk (clearFilters (loadUsers uid (Ok docs) s)))
    = Ok out
    /\ out <> [].
Proof.
  rewrite loadUsers_allSkills. cbn [tl]. intros Hin.
  destruct (In_skill_names uid docs s sk Hin) as (u & Hu & Hsk).
  rewrite filterPipeline_eq.
  cbn [setSelectedSkill clearFilters users searchText selectedSkill
       roleFilter useRadiusFilter]. cbv zeta.
  change (searchTextFilter "" ?l) with l.
  eexists. split; [reflexivity|].
  assert (Hout : In u (skillRoleFilter sk RoleAll
                         (users (loadUsers uid (Ok docs) s)))).
  { destruct (String.eqb_spec sk "All") as [->|Hne].
    - apply skillRoleFilter_sentinel. auto.
    - apply skillRoleFilter_specific; auto. }
  intros E. rewrite E in Hout. exact Hout.
Qed.

Lemma skill_chip_selects_someone_witness :
  In "Chess" (tl (allSkills (loadUsers (Some "me") (Ok sampleDocs)
                                       initialState)))
  /\ exists out : list UserWithSkills,
      filterPipeline
        (setSelectedSkill "Chess"
           (clearFilters (loadUsers (Some "me") (Ok sampleDocs)
                                    initialState)))
      = Ok out
      /\ out <> [].
Proof.
  assert (H : In "Chess" (tl (allSkills (loadUsers (Some "me")
                                           (Ok sampleDocs) initialState)))).
  { right. left. reflexivity. }
  split; [exact H|].
  exact (skill_chip_selects_someone (Some "me") sampleDocs initialState
                                    "Chess" H).
Defined.

(** Filtering a list keeps its keys distinct. *)
Lemma distinct_keys_filter {V K : Type} (key : V -> K) (keep : V -> bool) :
  forall vs : list V,
    NoDup (map key vs) -> NoDup (map key (filter keep vs)).
Proof.
  intros vs. induction vs as [|v vs IH]; cbn [map filter]; intros Hd.
  - constructor.
  - apply NoDup_cons_iff in Hd. destruct Hd as [Hfresh Hrest].
    destruct (keep v); cbn [map]; [|apply IH; exact Hrest].
    constructor; [|apply IH; exact Hrest].
    intros Hin. apply Hfresh. apply in_map_iff in Hin.
    destruct Hin as (w & Hw & Hin). apply filter_In in Hin.
    rewrite <- Hw. apply in_map. tauto.
Qed.

(** X16.  The loaded candidates carry the ids of their documents, as [id]
    and as [uid]; when the fetched documents have pairwise distinct ids,
    so have the candidates, and none of them has the id of the current
    user. *)
Theorem loaded_candidates_ids
        (uid0 : option string) (docs : list QueryDocumentSnapshot)
        (s : ScreenState) :
  NoDup (map doc_id docs) ->
  NoDup (map uid (users (loadUsers uid0 (Ok docs) s)))
  /\ map id (users (loadUsers uid0 (Ok docs) s))
     = map uid (users (loadUsers uid0 (Ok docs) s))
  /\ forall u, In u (users (loadUsers uid0 (Ok docs) s)) ->
               Some (uid u) <> uid0.
Proof.
  intros H. rewrite loadUsers_users. unfold collect.
  rewrite collect_users_from. cbn [app]. rewrite !map_map. cbn [toUser uid id].
  split; [|split].
  - apply (distinct_keys_filter doc_id). assumption.
  - reflexivity.
  - intros u Hin. apply in_map_iff in Hin. destruct Hin as (doc & <- & Hin).
    apply filter_In in Hin. destruct Hin as [_ He].
    apply eligible_iff in He. cbn [toUser uid]. tauto.
Qed.

Lemma loaded_candidates_ids_witness :
  NoDup (map doc_id sampleDocs)
  /\ NoDup (map uid (users (loadUsers (Some "me") (Ok sampleDocs)
                                      initialState))).
Proof.
  assert (H : NoDup (map doc_id sampleDocs)).
  { repeat constructor; simpl; intuition discriminate. }
  split; [exact H|].
  exact (proj1 (loaded_candidates_ids (Some "me") sampleDocs initialState H)).
Defined.

(* ===================================================================== *)
(** ** Conversation ids *)
(* ===================================================================== *)

Lemma generateConversationId_eq (a b : string) :
  generateConversationId a b
  = if (a <=? b)%string then (a ++ "_" ++ b)%string
    else (b ++ "_" ++ a)%string.
Proof.
  unfold generateConversationId, sort. cbn [fold_right insert].
  destruct (a <=? b)%string; reflexivity.
Qed.

Lemma generateConversationId_comm (a b : string) :
  generateConversationId a b = generateConversationId b a.
Proof.
  rewrite !generateConversationId_eq.
  destruct (a <=? b)%string eqn:Eab, (b <=? a)%string eqn:Eba;
    try reflexivity.
  - rewrite (String.leb_antisym a b Eab Eba). reflexivity.
  - destruct (String.leb_total a b); congruence.
Qed.

(** X17.  The conversation id does not depend on the order of the two
    user ids, so two signed-in users who message each other from their
    screens are sent to the same chat room. *)
Theorem conversation_id_symmetric :
  (forall a b : string,
      generateConversationId a b = generateConversationId b a)
  /\ (forall (ua ub : AuthUser) (ta tb : UserWithSkills),
         uid ta = auth_uid ua ->
         uid tb = auth_uid ub ->
         exists room : string,
           handleMessageUser (Some ua) tb
           = PushChatRoom room (auth_uid ub) (displayName tb)
           /\ handleMessageUser (Some ub) ta
              = PushChatRoom room (auth_uid ua) (displayName ta)).
Proof.
  split; [exact generateConversationId_comm|].
  intros ua ub ta tb Ha Hb. unfold handleMessageUser. rewrite Ha, Hb.
  eexists. split; [reflexivity|].
  rewrite (generateConversationId_comm (auth_uid ub)). reflexivity.
Qed.

Lemma conversation_id_symmetric_witness :
  uid xavier = auth_uid (mkAuthUser "x" None)
  /\ uid yann = auth_uid (mkAuthUser "y" None)
  /\ exists room : string,
      handleMessageUser (Some (mkAuthUser "x" None)) yann
      = PushChatRoom room "y" "Yann"
      /\ handleMessageUser (Some (mkAuthUser "y" None)) xavier
         = PushChatRoom room "x" "Xavier".
Proof.
  split; [reflexivity|]. split; [reflexivity|].
  exact (proj2 conversation_id_symmetric
               (mkAuthUser "x" None) (mkAuthUser "y" None) xavier yann
               eq_refl eq_refl).
Defined.

Lemma split_noUnderscore (x : string) :
  noUnderscore x = true -> split "_" x = [x].
Proof.
  unfold noUnderscore, chars. induction x as [|c x IH]; simpl; intros H.
  - reflexivity.
  - apply andb_true_iff in H. destruct H as [Hc Hx].
    apply negb_true_iff in Hc. rewrite Hc, (IH Hx). reflexivity.
Qed.

Lemma split_joined (x y : string) :
  noUnderscore x = true ->
  split "_" (x ++ String "_" y)%string = x :: split "_" y.
Proof.
  unfold noUnderscore, chars. induction x as [|c x IH]; simpl; intros H.
  - reflexivity.
  - apply andb_true_iff in H. destruct H as [Hc Hx].
    apply negb_true_iff in Hc. rewrite Hc, (IH Hx). reflexivity.
Qed.

Lemma split_generateConversationId (a b : string) :
  noUnderscore a = true ->
  noUnderscore b = true ->
  split "_" (generateConversationId a b)
  = if (a <=? b)%string then [a; b] else [b; a].
Proof.
  intros Ha Hb. rewrite generateConversationId_eq.
  change ("_" ++ b)%string with (String "_" b).
  change ("_" ++ a)%string with (String "_" a).
  destruct (a <=? b)%string;
    rewrite split_joined, split_noUnderscore by assumption; reflexivity.
Qed.

(** X18.  For user ids without underscore, [getOtherUserId] undoes
    [generateConversationId]: from the conversation id and one of the two
    ids it returns the other one.  The condition matters: with the ids
    ["a_b"] and ["c"] the answer for ["c"] is ["a"]. *)
Theorem getOtherUserId_round_trip (a b : string) :
  (noUnderscore a = true ->
   noUnderscore b = true ->
   getOtherUserId (generateConversationId a b) a = Some b
   /\ getOtherUserId (generateConversationId a b) b = Some a)
  /\ getOtherUserId (generateConversationId "a_b" "c") "c" = Some "a".
Proof.
  split; [|reflexivity].
  intros Ha Hb. unfold getOtherUserId.
  rewrite split_generateConversationId by assumption.
  destruct (a <=? b)%string; cbn [nth_error].
  - rewrite String.eqb_refl. split; [reflexivity|].
    destruct (String.eqb_spec a b) as [->|]; reflexivity.
  - rewrite String.eqb_refl. split; [|reflexivity].
    destruct (String.eqb_spec b a) as [->|]; reflexivity.
Qed.

Lemma getOtherUserId_round_trip_witness :
  noUnderscore "alice" = true
  /\ noUnderscore "bob" = true
  /\ getOtherUserId (generateConversationId "alice" "bob") "alice"
     = Some "bob"
  /\ getOtherUserId (generateConversationId "alice" "bob") "bob"
     = Some "alice".
Proof.
  split; [reflexivity|]. split; [reflexivity|].
  exact (proj1 (getOtherUserId_round_trip "alice" "bob") eq_refl eq_refl).
Defined.

(** X19.  Conversation ids do not collide: for user ids without
    underscore, two pairs of users get the same conversation id only if
    they are the same pair, in one order or the other.  With underscores
    they can collide: ["a_b"], ["c"] and ["a"], ["b_c"] share an id. *)
Theorem generateConversationId_injective (a b c d : string) :
  (noUnderscore a = true -> noUnderscore b = true ->
   noUnderscore c = true -> noUnderscore d = true ->
   generateConversationId a b = generateConversationId c d ->
   (a = c /\ b = d) \/ (a = d /\ b = c))
  /\ generateConversationId "a_b" "c" = generateConversationId "a" "b_c".
Proof.
  split; [|reflexivity].
  intros Ha Hb Hc Hd E. apply (f_equal (split "_")) in E.
  rewrite !split_generateConversationId in E by assumption.
  destruct (a <=? b)%string, (c <=? d)%string; injection E as E1 E2; auto.
Qed.

Lemma generateConversationId_injective_witness :
  noUnderscore "alice" = true
  /\ noUnderscore "bob" = true
  /\ generateConversationId "alice" "bob" = generateConversationId "bob" "alice"
  /\ (("alice" = "bob" /\ "bob" = "alice")
      \/ ("alice" = "alice" /\ "bob" = "bob")).
Proof.
  split; [reflexivity|]. split; [reflexivity|]. split; [reflexivity|].
  exact (proj1 (generateConversationId_injective "alice" "bob" "bob" "alice")
               eq_refl eq_refl eq_refl eq_refl eq_refl).
Defined.

(* ===================================================================== *)
(** ** The star rating *)
(* ===================================================================== *)

Lemma star_Z (n : Z) (half : bool) (i : Z) :
  StarRating.star (Num (IZR n)) half i
  = if (i <=? n)%Z then StarRating.FullStar
    else if (i =? n + 1)%Z && half then StarRating.HalfStar
         else StarRating.EmptyStar.
Proof.
  unfold StarRating.star. cbn [le add lift2 strictEq].
  destruct (Z.leb_spec i n) as [Hle|Hgt].
  - destruct (Rle_dec (IZR i) (IZR n)) as [_|Hn]; [reflexivity|].
    exfalso. apply Hn. apply IZR_le. assumption.
  - destruct (Rle_dec (IZR i) (IZR n)) as [Hr|_].
    + apply le_IZR in Hr. lia.
    + destruct (Z.eqb_spec i (n + 1)) as [->|Hne].
      * rewrite plus_IZR.
        destruct (Req_dec_T (IZR n + 1) (IZR n + 1)); [reflexivity|].
        contradiction.
      * destruct (Req_dec_T (IZR i) (IZR n + 1)) as [E|_]; [|reflexivity].
        rewrite <- (plus_IZR n 1) in E. apply eq_IZR in E. contradiction.
Qed.

Lemma renderStars_Num (r : R) :
  (0 <= r)%R ->
  StarRating.renderStars (Num r)
  = map (StarRating.star (Num (IZR (Int_part r)))
           (if Rle_dec (1 / 2) (r - IZR (Int_part r)) then true else false))
        [1; 2; 3; 4; 5]%Z.
Proof.
  intros H. unfold StarRating.renderStars, Math_floor, JSExtra.ge, rem.
  cbn [lift1]. destruct (Req_dec_T 1 0); [lra|].
  unfold truncR. replace (r / 1)%R with r by lra.
  destruct (Rle_dec 0 r); [|contradiction].
  cbn [le]. rewrite Rmult_1_l. reflexivity.
Qed.

Lemma Int_part_bounds (r : R) :
  (IZR (Int_part r) <= r < IZR (Int_part r) + 1)%R.
Proof. destruct (base_Int_part r). lra. Qed.

(** X20.  For a rating between 0 and 5 the five glyphs are full stars,
    then at most one half star, then empty stars, and the number of stars
    they show is the rating rounded down to a multiple of one half: it is
    at most the rating and misses it by less than half a star. *)
Theorem renderStars_in_range (r : R) :
  (0 <= r <= 5)%R ->
  (exists k h : nat,
      (h <= 1)%nat
      /\ StarRating.renderStars (Num r)
         = repeat StarRating.FullStar k ++ repeat StarRating.HalfStar h
           ++ repeat StarRating.EmptyStar (5 - k - h))
  /\ (starsValue (StarRating.renderStars (Num r)) <= r
      < starsValue (StarRating.renderStars (Num r)) + 1 / 2)%R.
Proof.
  intros [H0 H5]. rewrite renderStars_Num by assumption.
  pose proof (Int_part_bounds r) as [Hlo Hhi].
  set (n := Int_part r) in *.
  assert (Hn : (0 <= n <= 5)%Z).
  { split.
    - apply Z.lt_succ_r. apply lt_IZR. rewrite succ_IZR. lra.
    - apply Z.lt_succ_r. apply lt_IZR. rewrite succ_IZR.
      change (IZR 5) with 5%R. lra. }
  cbn [map]. rewrite !star_Z.
  assert (Hcases : (n = 0 \/ n = 1 \/ n = 2 \/ n = 3 \/ n = 4 \/ n = 5)%Z)
    by lia.
  destruct (Rle_dec (1 / 2) (r - IZR n)) as [Hh|Hh];
    destruct Hcases as [E|[E|[E|[E|[E|E]]]]]; rewrite E in *;
    cbn [Z.leb Z.eqb Z.add Z.compare Pos.compare Pos.compare_cont
         Pos.eqb andb Pos.add Pos.succ Pos.add_carry] in *.
  all: split;
    [ first
        [ exists 0%nat, 1%nat; split; [lia | reflexivity]
        | exists 1%nat, 1%nat; split; [lia | reflexivity]
        | exists 2%nat, 1%nat; split; [lia | reflexivity]
        | exists 3%nat, 1%nat; split; [lia | reflexivity]
        | exists 4%nat, 1%nat; split; [lia | reflexivity]
        | exists 0%nat, 0%nat; split; [lia | reflexivity]
        | exists 1%nat, 0%nat; split; [lia | reflexivity]
        | exists 2%nat, 0%nat; split; [lia | reflexivity]
        | exists 3%nat, 0%nat; split; [lia | reflexivity]
        | exists 4%nat, 0%nat; split; [lia | reflexivity]
        | exists 5%nat, 0%nat; split; [lia | reflexivity] ]
    | unfold starsValue, starValue; cbn [fold_right]; lra ].
Qed.

Lemma renderStars_in_range_witness :
  (0 <= 7 / 2 <= 5)%R
  /\ (starsValue (StarRating.renderStars (Num (7 / 2))) <= 7 / 2
      < starsValue (StarRating.renderStars (Num (7 / 2))) + 1 / 2)%R.
Proof.
  assert (H : (0 <= 7 / 2 <= 5)%R) by lra.
  split; [exact H|].
  exact (proj2 (renderStars_in_range (7 / 2) H)).
Defined.

(** X21.  Outside that range the row saturates: a rating of 5 or more
    gives five full stars, and a negative rating or [NaN] gives five empty
    stars. *)
Theorem renderStars_out_of_range (r : R) :
  ((5 <= r)%R ->
   StarRating.renderStars (Num r) = repeat StarRating.FullStar 5)
  /\ ((r < 0)%R ->
      StarRating.renderStars (Num r) = repeat StarRating.EmptyStar 5)
  /\ StarRating.renderStars NaN = repeat StarRating.EmptyStar 5.
Proof.
  pose proof (Int_part_bounds r) as [Hlo Hhi].
  split; [|split].
  - intros H. rewrite renderStars_Num by lra. cbn [map]. rewrite !star_Z.
    assert (Hn : (5 <= Int_part r)%Z).
    { apply Z.lt_succ_r. apply lt_IZR. rewrite succ_IZR.
      change (IZR 5) with 5%R. lra. }
    repeat match goal with
           | |- context [(?i <=? Int_part r)%Z] =>
               destruct (Z.leb_spec i (Int_part r)); [|lia]
           end.
    reflexivity.
  - intros H. unfold StarRating.renderStars, Math_floor. cbn [lift1 map].
    rewrite !star_Z.
    assert (Hn : (Int_part r < 0)%Z).
    { apply lt_IZR. lra. }
    repeat match goal with
           | |- context [(?i <=? Int_part r)%Z] =>
               destruct (Z.leb_spec i (Int_part r)); [lia|]
           end.
    repeat match goal with
           | |- context [(?i =? Int_part r + 1)%Z] =>
               destruct (Z.eqb_spec i (Int_part r + 1)); [lia|]
           end.
    reflexivity.
  - reflexivity.
Qed.

Lemma renderStars_out_of_range_witness :
  (5 <= 6)%R
  /\ StarRating.renderStars (Num 6) = repeat StarRating.FullStar 5
  /\ (-1 < 0)%R
  /\ StarRating.renderStars (Num (-1)) = repeat StarRating.EmptyStar 5.
Proof.
  assert (H6 : (5 <= 6)%R) by lra. assert (H1 : (-1 < 0)%R) by lra.
  split; [exact H6|]. split.
  - exact (proj1 (renderStars_out_of_range 6) H6).
  - split; [exact H1|].
    exact (proj1 (proj2 (renderStars_out_of_range (-1))) H1).
Defined.

(* ===================================================================== *)
(** ** The map of the screen *)
(* ===================================================================== *)

Lemma hasMapLocation_pure (u : UserWithSkills) :
  hasMapLocation u = Ok (mapLocated u).
Proof.
  unfold hasMapLocation, mapLocated.
  destruct (location u) as [| |str|c]; simpl; try reflexivity.
  - destruct (truthyStr str); reflexivity.
  - destruct (truthyField (latitude c)); reflexivity.
Qed.

Lemma hasLatLng_pure (u : UserWithSkills) :
  hasLatLng u = Ok (mapLocated u).
Proof.
  unfold hasLatLng, mapLocated.
  destruct (location u) as [| |str|c]; simpl; try reflexivity.
  - destruct (truthyStr str); reflexivity.
  - destruct (truthyField (latitude c)); reflexivity.
Qed.

Lemma usersWithLocation_eq (s : ScreenState) :
  usersWithLocation s = Ok (filter mapLocated (filteredUsers s)).
Proof. apply filterE_pure. exact hasMapLocation_pure. Qed.

Lemma truthyField_Num (v : JSField) :
  truthyField v = true -> exists x : R, v = Some (Num x) /\ x <> 0%R.
Proof.
  destruct v as [[|x]|]; simpl; try discriminate.
  destruct (Req_dec_T x 0); [discriminate|]. intros _. exists x. auto.
Qed.

(** X22.  [handleOpenMap] never throws.  It opens the map only when the
    coordinate of the current user is a pair of non-zero numbers and some
    result has an object location with truthy latitude and longitude; the
    map is then centred on the coordinate of the current user, not on the
    default position.  A current user whose latitude or longitude is
    exactly 0 gets the message that location sharing is disabled. *)
Theorem handleOpenMap_outcome (s : ScreenState) :
  (exists o : MapOutcome, handleOpenMap s = Ok o)
  /\ (handleOpenMap s = Ok ShowMapModal ->
      exists la lo : R,
        currentUserLocation s
        = Some (mkCoords (Some (Num la)) (Some (Num lo)))
        /\ la <> 0%R /\ lo <> 0%R
        /\ initialRegion s = (Num la, Num lo)
        /\ exists u, In u (filteredUsers s) /\ mapLocated u = true)
  /\ (forall cur : Coords,
         currentUserLocation s = Some cur ->
         latitude cur = Some (Num 0) \/ longitude cur = Some (Num 0) ->
         handleOpenMap s = Ok AlertLocationDisabled).
Proof.
  unfold handleOpenMap. rewrite usersWithLocation_eq. cbn [bind].
  split; [|split].
  - destruct (currentUserLocation s) as [cur|]; [|eexists; reflexivity].
    destruct (negb _ || negb _); [eexists; reflexivity|].
    destruct (Nat.eqb _ 0); eexists; reflexivity.
  - destruct (currentUserLocation s) as [[la lo]|] eqn:Ecur; [|discriminate].
    cbn [latitude longitude].
    destruct (truthyField la) eqn:Ela; [|discriminate].
    destruct (truthyField lo) eqn:Elo; [|discriminate].
    cbn [negb orb].
    destruct (filter mapLocated (filteredUsers s)) as [|u found] eqn:Ef;
      [discriminate|]. intros _.
    destruct (truthyField_Num la Ela) as (x & -> & Hx).
    destruct (truthyField_Num lo Elo) as (y & -> & Hy).
    exists x, y. split; [reflexivity|]. split; [assumption|].
    split; [assumption|]. split.
    + unfold initialRegion. rewrite Ecur. cbn [latitude longitude orNum].
      rewrite !truthyNum_nonzero by assumption. reflexivity.
    + exists u. apply filter_In. rewrite Ef. left. reflexivity.
  - intros cur Hcur [H|H]; rewrite Hcur, H; cbn [truthyField];
      rewrite truthyNum_zero; cbn [negb orb]; rewrite ?orb_true_r;
      reflexivity.
Qed.

Lemma mapLocated_northEast : mapLocated northEast = true.
Proof.
  unfold mapLocated. cbn [location northEast candidateAt latitude longitude
                          truthyField].
  rewrite truthyNum_nonzero by lra. reflexivity.
Qed.

Lemma handleOpenMap_mapScreen : handleOpenMap mapScreen = Ok ShowMapModal.
Proof.
  unfold handleOpenMap. rewrite usersWithLocation_eq.
  cbn [currentUserLocation mapScreen latitude longitude truthyField
       filteredUsers filter bind].
  rewrite truthyNum_nonzero by lra. cbn [negb orb].
  rewrite mapLocated_northEast.
  destruct (mapLocated legacy), (mapLocated atOrigin); reflexivity.
Qed.

Lemma handleOpenMap_outcome_witness :
  handleOpenMap
    (mkState [] [north49] ["All"] false false "" "All" RoleAll false
             (Num 10) (Some origin) 1)
  = Ok AlertLocationDisabled
  /\ handleOpenMap mapScreen = Ok ShowMapModal
  /\ exists la lo : R,
      currentUserLocation mapScreen
      = Some (mkCoords (Some (Num la)) (Some (Num lo)))
      /\ la <> 0%R /\ lo <> 0%R
      /\ initialRegion mapScreen = (Num la, Num lo)
      /\ exists u, In u (filteredUsers mapScreen) /\ mapLocated u = true.
Proof.
  split.
  - exact (proj2 (proj2 (handleOpenMap_outcome
                           (mkState [] [north49] ["All"] false false ""
                                    "All" RoleAll false (Num 10)
                                    (Some origin) 1)))
                 origin eq_refl (or_introl eq_refl)).
  - split; [exact handleOpenMap_mapScreen|].
    exact (proj1 (proj2 (handleOpenMap_outcome mapScreen))
                 handleOpenMap_mapScreen).
Defined.

Lemma mapE_pure {A B : Type} (f : A -> JSResult B) (g : A -> B)
      (l : list A) :
  (forall x, In x l -> f x = Ok (g x)) -> mapE f l = Ok (map g l).
Proof.
  induction l as [|x l IH]; intros H; simpl; [reflexivity|].
  rewrite (H x (or_introl eq_refl)), IH; [reflexivity|].
  intros y Hy. apply H. right. assumption.
Qed.

Lemma latLngOf_located (u : UserWithSkills) :
  mapLocated u = true -> latLngOf u = Ok (coordsOf u).
Proof.
  unfold mapLocated, latLngOf, coordsOf.
  destruct (location u) as [| |str|[la lo]]; try discriminate. reflexivity.
Qed.

(** X23.  When there are results and the coordinate of the current user
    is known, [onMapReady] fits the map to that coordinate followed by the
    coordinates of exactly the results that [handleOpenMap] counts, in
    order; each of these coordinates has a truthy latitude and
    longitude. *)
Theorem onMapReady_fits_counted_users (s : ScreenState) (cur : Coords) :
  filteredUsers s <> [] ->
  currentUserLocation s = Some cur ->
  exists found : list UserWithSkills,
    usersWithLocation s = Ok found
    /\ onMapReady true s = Ok (Some (cur :: map coordsOf found))
    /\ Forall (fun c => truthyField (latitude c)
                        && truthyField (longitude c) = true)
              (map coordsOf found).
Proof.
  intros Hne Hcur. exists (filter mapLocated (filteredUsers s)).
  split; [apply usersWithLocation_eq|]. split.
  - unfold onMapReady. rewrite Hcur.
    destruct (filteredUsers s) as [|u l] eqn:E; [congruence|].
    cbn [List.length Nat.ltb Nat.leb]. rewrite <- E.
    rewrite (filterE_pure hasLatLng mapLocated) by exact hasLatLng_pure.
    cbn [bind]. rewrite (mapE_pure latLngOf coordsOf).
    + cbn [bind List.length Nat.ltb Nat.leb andb]. destruct cur. reflexivity.
    + intros x Hx. apply filter_In in Hx. apply latLngOf_located. tauto.
  - apply Forall_forall. intros c Hin. apply in_map_iff in Hin.
    destruct Hin as (u & <- & Hu). apply filter_In in Hu.
    destruct Hu as [_ Hu]. unfold mapLocated, coordsOf in *.
    destruct (location u); try discriminate. assumption.
Qed.

Lemma onMapReady_fits_counted_users_witness :
  filteredUsers mapScreen <> []
  /\ exists found : list UserWithSkills,
      usersWithLocation mapScreen = Ok found
      /\ onMapReady true mapScreen
         = Ok (Some (mkCoords (Some (Num 1)) (Some (Num 1))
                     :: map coordsOf found))
      /\ Forall (fun c => truthyField (latitude c)
                          && truthyField (longitude c) = true)
                (map coordsOf found).
Proof.
  assert (H : filteredUsers mapScreen <> []) by discriminate.
  split; [exact H|].
  exact (onMapReady_fits_counted_users
           mapScreen (mkCoords (Some (Num 1)) (Some (Num 1))) H eq_refl).
Defined.

Lemma markerOf_pure (cur : option Coords) (u : UserWithSkills) :
  markerOf cur u = Ok (markerFor cur u).
Proof.
  unfold markerOf, markerFor, mapLocated.
  destruct (location u) as [| |str|[lat lon]]; try reflexivity.
  cbn [truthy]. destruct (truthyStr str); [|reflexivity].
  destruct cur; reflexivity.
Qed.

(** X24.  The markers are computed without exception, one entry per
    result and in the order of the results, and an entry holds a marker
    exactly when the location of the result is truthy.  A result that
    [handleOpenMap] counts gets a marker at its coordinate, with the
    distance to the current user in its callout.  A marker is also drawn
    for results that [handleOpenMap] does not count: a legacy string
    location gives a marker whose coordinate has no latitude and no
    longitude, and an object location with latitude 0 gives a marker
    without distance. *)
Theorem markers_for_truthy_locations (s : ScreenState) :
  markers s
  = Ok (map (markerFor (currentUserLocation s)) (filteredUsers s))
  /\ (forall (cur : option Coords) (u : UserWithSkills),
         (exists m : Marker, markerOf cur u = Ok (Some m))
         <-> truthy (location u) = true)
  /\ (forall (cur : option Coords) (u : UserWithSkills),
         truthy (location u) = false -> markerOf cur u = Ok None)
  /\ (forall (cur : Coords) (u : UserWithSkills),
         mapLocated u = true ->
         markerOf (Some cur) u
         = Ok (Some (mkMarker (uid u) (coordsOf u)
                       (Some (haversineDistance cur (coordsOf u))))))
  /\ (forall (cur : option Coords) (u : UserWithSkills) (str : string),
         location u = VString str -> truthyStr str = true ->
         mapLocated u = false
         /\ markerOf cur u
            = Ok (Some (mkMarker (uid u) (mkCoords None None) None)))
  /\ (forall (cur : option Coords) (u : UserWithSkills) (lon : JSField),
         location u = VObject (mkCoords (Some (Num 0)) lon) ->
         mapLocated u = false
         /\ markerOf cur u
            = Ok (Some (mkMarker (uid u) (mkCoords (Some (Num 0)) lon)
                          None))).
Proof.
  split; [|split; [|split; [|split; [|split]]]].
  - unfold markers. apply mapE_pure. intros u _. apply markerOf_pure.
  - intros cur u. rewrite markerOf_pure. unfold markerFor.
    destruct (location u) as [| |str|c]; cbn [truthy].
    + split; [intros [m H]; discriminate | discriminate].
    + split; [intros [m H]; discriminate | discriminate].
    + destruct (truthyStr str).
      * split; [reflexivity | intros _; eexists; reflexivity].
      * split; [intros [m H]; discriminate | discriminate].
    + split; [reflexivity | intros _; eexists; reflexivity].
  - intros cur u H. rewrite markerOf_pure. unfold markerFor.
    destruct (location u) as [| |str|c]; cbn [truthy] in H;
      try reflexivity; [rewrite H; reflexivity | discriminate].
  - intros cur u H. rewrite markerOf_pure. unfold markerFor, coordsOf.
    rewrite H. unfold mapLocated in H.
    destruct (location u); try discriminate. reflexivity.
  - intros cur u str Hloc Hstr. rewrite markerOf_pure.
    unfold markerFor, mapLocated. rewrite Hloc, Hstr. split; reflexivity.
  - intros cur u lon Hloc. rewrite markerOf_pure.
    unfold markerFor, mapLocated. rewrite Hloc.
    cbn [latitude truthyField]. rewrite truthyNum_zero. cbn [andb].
    split; [reflexivity|]. destruct cur; reflexivity.
Qed.

Lemma markers_for_truthy_locations_witness :
  mapLocated northEast = true
  /\ markerOf (Some origin) northEast
     = Ok (Some (mkMarker "ne" (mkCoords (Some (Num 1)) (Some (Num 1)))
                   (Some (haversineDistance
                            origin
                            (mkCoords (Some (Num 1)) (Some (Num 1)))))))
  /\ markerOf (Some origin) legacy
     = Ok (Some (mkMarker "legacy" (mkCoords None None) None)).
Proof.
  destruct (markers_for_truthy_locations mapScreen)
    as (_ & _ & _ & Hmap & Hstr & _).
  split; [exact mapLocated_northEast|]. split.
  - exact (Hmap origin northEast mapLocated_northEast).
  - exact (proj2 (Hstr (Some origin) legacy "Boston" eq_refl eq_refl)).
Defined.

(* ===================================================================== *)
(** ** The user card and the friend requests *)
(* ===================================================================== *)

Lemma renderUserCard_total (rf : RoleFilterType) (cur : option Coords)
      (st : RequestState) (u : UserWithSkills) :
  exists card, renderUserCard rf cur st u = Ok card.
Proof.
  unfold renderUserCard.
  destruct (location u) as [| |str|c]; simpl; try (eexists; reflexivity).
  - destruct (truthyStr str); eexists; reflexivity.
  - destruct cur as [cur|]; simpl; [|eexists; reflexivity].
    destruct (truthyField (latitude c)); eexists; reflexivity.
Qed.


Lemma requestsFrom_app (uid0 : string) (l1 l2 : list FriendRequest.t) :
  requestsFrom uid0 (l1 ++ l2) = requestsFrom uid0 l1 ++ requestsFrom uid0 l2.
Proof. apply filter_app. Qed.

Lemma filter_keeps_Permutation {T : Type} (keep : T -> bool)
      (xs ys : list T) :
  Permutation xs ys -> Permutation (filter keep xs) (filter keep ys).
Proof.
  intros H. induction H as [|x xs ys _ IH|x y xs|xs ys zs _ IH1 _ IH2].
  - apply perm_nil.
  - cbn [filter]. destruct (keep x); [apply perm_skip|]; exact IH.
  - cbn [filter]. destruct (keep x), (keep y);
      try apply Permutation_refl. apply perm_swap.
  - exact (perm_trans IH1 IH2).
Qed.

Lemma loaded_ids_Permutation (user : AuthUser)
      (docs1 docs2 : list FriendRequest.t) (st1 st2 : RequestState) :
  Permutation docs1 docs2 ->
  Permutation (sentRequests (loadSentRequests (Some user) (Ok docs1) st1))
              (sentRequests (loadSentRequests (Some user) (Ok docs2) st2)).
Proof.
  intros H. cbn [loadSentRequests sentRequests].
  apply Permutation_map, filter_keeps_Permutation. exact H.
Qed.

(** X26.  A successful [sendFriendRequest] keeps the screen in step with
    the store, up to the order in which the store returns documents: if
    the list of sent requests held the ids that [loadSentRequests] reads
    from a snapshot of its query, then afterwards it holds the ids read
    from any snapshot of the query on the new collection, among them the
    id of the selected user, and the card of that user shows the pending
    icon unless the user is a friend.  When reading the sender or writing
    the request fails, the collection and the list are unchanged. *)
Theorem sendFriendRequest_in_step
        (user : AuthUser) (sel : UserWithSkills)
        (currentUserData : option DocumentData.t) (now : string)
        (collection docs : list FriendRequest.t) (st : RequestState) :
  selectedUser st = Some sel ->
  sentSnapshot (auth_uid user) collection docs ->
  Permutation (sentRequests st)
              (sentRequests (loadSentRequests (Some user) (Ok docs) st)) ->
  (let after :=
     sendFriendRequest (Some user) (Ok currentUserData) true now
                       collection st in
   (forall docs' : list FriendRequest.t,
       sentSnapshot (auth_uid user) (fst after) docs' ->
       Permutation (sentRequests (snd after))
                   (sentRequests (loadSentRequests (Some user) (Ok docs')
                                                   (snd after))))
   /\ sentRequests (snd after) = sentRequests st ++ [uid sel]
   /\ showRequestModal (snd after) = false
   /\ sending (snd after) = false
   /\ forall (rf : RoleFilterType) (cur : option Coords),
       includes (existingFriends st) (uid sel) = false ->
       exists card, renderUserCard rf cur (snd after) sel = Ok card
                    /\ action card = PendingIcon)
  /\ (forall (e : JSError) (written : bool),
         let failed :=
           sendFriendRequest (Some user) (Throw e) written now
                             collection st in
         fst failed = collection /\ sentRequests (snd failed) = sentRequests st
         /\ sending (snd failed) = false)
  /\ (let failed :=
        sendFriendRequest (Some user) (Ok currentUserData) false now
                          collection st in
      fst failed = collection /\ sentRequests (snd failed) = sentRequests st
      /\ sending (snd failed) = false).
Proof.
  intros Hsel Hdocs Hsync. unfold sendFriendRequest. rewrite Hsel.
  split; [|split].
  - cbv zeta. cbn [fst snd sentRequests showRequestModal sending].
    split; [|split; [reflexivity|split; [reflexivity|split; [reflexivity|]]]].
    + intros docs' Hdocs'. unfold sentSnapshot in *.
      rewrite requestsFrom_app in Hdocs'.
      cbn [requestsFrom filter FriendRequest.fromUserId] in Hdocs'.
      rewrite String.eqb_refl in Hdocs'.
      fold (requestsFrom (auth_uid user) collection) in Hdocs'.
      match type of Hdocs' with
      | Permutation _ (_ ++ [?r]) => set (request := r) in *
      end.
      assert (P1 : Permutation docs' (docs ++ [request])).
      { eapply perm_trans; [exact Hdocs'|].
        apply Permutation_app_tail, Permutation_sym, Hdocs. }
      apply Permutation_sym.
      eapply perm_trans;
        [apply (loaded_ids_Permutation user docs' (docs ++ [request]) _ st
                                       P1)|].
      cbn [loadSentRequests sentRequests] in *.
      rewrite filter_app, map_app. subst request.
      cbn [filter FriendRequest.status].
      change ("pending" =? "pending") with true.
      cbn [map FriendRequest.toUserId].
      apply Permutation_app_tail, Permutation_sym. exact Hsync.
    + intros rf cur Hnf.
      destruct (renderUserCard_total rf cur
                  (mkRequestState (sentRequests st ++ [uid sel])
                                  (existingFriends st) (selectedUser st)
                                  false (requestMessage st) false) sel)
        as [card Hcard].
      exists card. split; [exact Hcard|].
      unfold renderUserCard in Hcard.
      cbn [existingFriends sentRequests] in Hcard. rewrite Hnf in Hcard.
      assert (Hin : includes (sentRequests st ++ [uid sel]) (uid sel) = true).
      { apply includes_In. apply in_app_iff. right. left. reflexivity. }
      rewrite Hin in Hcard.
      destruct (if truthy (location sel) then _ else _) as [texts|e];
        cbn [bind] in Hcard; [|discriminate].
      injection Hcard as <-. reflexivity.
  - intros e written. cbv zeta. cbn [fst snd sentRequests sending]. auto.
  - cbv zeta. cbn [fst snd sentRequests sending]. auto.
Qed.

Lemma sendFriendRequest_in_step_witness :
  selectedUser (openRequestModal (Some xavier) idleRequests) = Some xavier
  /\ sentSnapshot "alice" [] []
  /\ sentRequests
       (snd (sendFriendRequest (Some alice) (Ok None) true "2025-01-01"
               [] (openRequestModal (Some xavier) idleRequests)))
     = ["x"]
  /\ Permutation
       ["x"]
       (sentRequests
          (loadSentRequests (Some alice)
             (Ok (requestsFrom "alice"
                    (fst (sendFriendRequest (Some alice) (Ok None) true
                            "2025-01-01" []
                            (openRequestModal (Some xavier) idleRequests)))))
             idleRequests)).
Proof.
  split; [reflexivity|]. split; [apply perm_nil|].
  destruct (sendFriendRequest_in_step alice xavier None "2025-01-01" [] []
              (openRequestModal (Some xavier) idleRequests)
              eq_refl (perm_nil _) (perm_nil _)) as ((Hload & H & _) & _).
  split; [exact H|].
  exact (Hload _ (Permutation_refl _)).
Defined.
